(** * Failed-query-log report generator: a shallow embedding of [src/main.py]

    The repository is one Cloud Function, [generate_report].  It fetches the
    spreadsheet [failed_logs.xlsx] from a Drive folder, aggregates it with
    pandas, renders a bar chart, composes a one-page PDF and uploads it.

    The embedding follows the source step by step:
    - pandas values (cells, Series, DataFrame) are modelled as data, with the
      library operations the source calls ([value_counts], [idxmax], [max],
      [head], [isnull], column selection) as executable functions;
    - Python strings are [string]s of 8-bit code points, [str.split],
      [str.join] and slicing are executable functions over them;
    - the function body is written in a small state-and-exception monad over
      the remote folder, the two temporary files and the printed log. *)

From Stdlib Require Import Ascii String.
From stdpp Require Import base decidable option list strings gmap pretty infinite sorting.


(** ** Exceptions *)

(** The exceptions the modelled code can see.  [str e] is what the catch-all
    handler formats into its response. *)
Inductive exn :=
  | KeyError (key : string)
  | ValueError (msg : string)
  | TypeError (msg : string)
  | IndexError (msg : string)
  | ExternalError (msg : string).

Definition exn_str (e : exn) : string :=
  match e with
  | KeyError k => "'" +:+ k +:+ "'"
  | ValueError m | TypeError m | IndexError m | ExternalError m => m
  end.

(** Result of an expression that may raise. *)
Inductive result (A : Type) :=
  | Ok (a : A)
  | Raise (e : exn).
Arguments Ok {A} a.
Arguments Raise {A} e.

Definition rbind {A B} (r : result A) (k : A → result B) : result B :=
  match r with
  | Ok a => k a
  | Raise e => Raise e
  end.

(** ** Cells *)

(** [pandas.Timestamp] at whole-second resolution. *)
Record Timestamp := mkTimestamp {
  year : nat; month : nat; day : nat;
  hour : nat; minute : nat; second : nat
}.

(** What a spreadsheet cell holds once parsed: a blank of an object column
    ([NaN]), a blank of a datetime column ([NaT]), text, or a timestamp. *)
Inductive cell :=
  | NaN
  | NaT
  | Text (s : string)
  | Stamp (t : Timestamp).

Global Instance Timestamp_eq_dec : EqDecision Timestamp.
Proof. solve_decision. Defined.
Global Instance cell_eq_dec : EqDecision cell.
Proof. solve_decision. Defined.

(** [pandas.isnull] on one value. *)
Definition isnull (c : cell) : bool :=
  match c with
  | NaN | NaT => true
  | Text _ | Stamp _ => false
  end.

Definition pad2 (n : nat) : string :=
  if decide (n < 10) then "0" +:+ pretty n else pretty n.

Definition pad4 (n : nat) : string :=
  if decide (n < 10) then "000" +:+ pretty n
  else if decide (n < 100) then "00" +:+ pretty n
  else if decide (n < 1000) then "0" +:+ pretty n
  else pretty n.

Definition Timestamp_str (t : Timestamp) : string :=
  pad4 (year t) +:+ "-" +:+ pad2 (month t) +:+ "-" +:+ pad2 (day t) +:+ " " +:+
  pad2 (hour t) +:+ ":" +:+ pad2 (minute t) +:+ ":" +:+ pad2 (second t).

(** [str(x)], also what an f-string placeholder [{x}] expands to. *)
Definition str (c : cell) : string :=
  match c with
  | NaN => "nan"
  | NaT => "NaT"
  | Text s => s
  | Stamp t => Timestamp_str t
  end.

(** ** Series and DataFrame *)

Abbreviation Series := (list cell).

(** A frame is its column index and its rows in sheet order.  A row maps a
    column name to its cell; a name with no entry is a blank cell. *)
Record DataFrame := mkDataFrame {
  columns : list string;
  rows : list (gmap string cell)
}.

(** [row[col]] *)
Definition row_get (r : gmap string cell) (col : string) : cell :=
  default NaN (r !! col).

(** [len(df)] *)
Definition len (df : DataFrame) : nat := length (rows df).

(** The cells of one column, in row order. *)
Definition column (df : DataFrame) (col : string) : Series :=
  (λ r, row_get r col) <$> rows df.

(** [df[col]]: raises [KeyError] on an unknown column. *)
Definition getitem (df : DataFrame) (col : string) : result Series :=
  if decide (col ∈ columns df) then Ok (column df col)
  else Raise (KeyError col).

(** [df[[c1, ..., cn]]]: the frame restricted to the listed columns. *)
Definition select (df : DataFrame) (cols : list string) : result DataFrame :=
  match list_find (λ c, c ∉ columns df) cols with
  | Some (_, c) => Raise (KeyError c)
  | None =>
      Ok {| columns := cols;
            rows := (λ r, filter (λ kv, kv.1 ∈ cols) r) <$> rows df |}
  end.

(** [df.head(n)] *)
Definition head (n : nat) (df : DataFrame) : DataFrame :=
  {| columns := columns df; rows := take n (rows df) |}.

(** [s.isnull().all()] *)
Definition isnull_all (s : Series) : bool := forallb isnull s.

(** [s.dropna()] *)
Definition dropna (s : Series) : Series := filter (λ c, isnull c = false) s.

(** *** [Series.value_counts()]

    pandas counts the non-null values with a hash table that keeps the order
    of first appearance, then sorts the counts in descending order.  Ties are
    kept here in first-appearance order (a stable sort). *)

Abbreviation counts := (list (cell * nat)).

Fixpoint bump (k : cell) (acc : counts) : counts :=
  match acc with
  | [] => [(k, 1)]
  | (k', n) :: acc' =>
      if decide (k = k') then (k', S n) :: acc' else (k', n) :: bump k acc'
  end.

Definition tally (s : Series) : counts :=
  fold_left (λ acc k, bump k acc) s [].

Fixpoint insert_desc (x : cell * nat) (l : counts) : counts :=
  match l with
  | [] => [x]
  | y :: l' =>
      if decide (y.2 ≤ x.2) then x :: y :: l' else y :: insert_desc x l'
  end.

Definition sort_desc (l : counts) : counts := foldr insert_desc [] l.

Definition value_counts (s : Series) : counts := sort_desc (tally (dropna s)).

(** [vc.head(n)] on a counts Series. *)
Definition counts_head (n : nat) (vc : counts) : counts := take n vc.

(** [vc.idxmax()]: the label of the first maximal count; [ValueError] on an
    empty Series. *)
Fixpoint idxmax_go (best : cell * nat) (l : counts) : cell :=
  match l with
  | [] => best.1
  | x :: l' => idxmax_go (if decide (best.2 < x.2) then x else best) l'
  end.

Definition idxmax (vc : counts) : result cell :=
  match vc with
  | [] => Raise (ValueError "attempt to get argmax of an empty sequence")
  | x :: l => Ok (idxmax_go x l)
  end.

(** *** [Series.max()]

    On a datetime column (timestamps and [NaT] only) the nulls are skipped
    and an all-null column gives [NaT].  On an object column an empty or
    all-[NaN] column gives [NaN], an all-text column its greatest string, and
    anything mixed raises [TypeError] from the element comparison, as
    pandas 2 does (a text column with a blank included). *)

(** [type(x).__name__], as the comparison error prints it. *)
Definition type_name (c : cell) : string :=
  match c with
  | NaN => "float"
  | NaT => "NaTType"
  | Text _ => "str"
  | Stamp _ => "Timestamp"
  end.

Definition Timestamp_key (t : Timestamp) : list nat :=
  [year t; month t; day t; hour t; minute t; second t].

Fixpoint lex_ltb (a b : list nat) : bool :=
  match a, b with
  | x :: a', y :: b' => if decide (x < y) then true
                        else if decide (y < x) then false else lex_ltb a' b'
  | [], _ :: _ => true
  | _, [] => false
  end.

Definition Timestamp_max (a b : Timestamp) : Timestamp :=
  if lex_ltb (Timestamp_key a) (Timestamp_key b) then b else a.

Definition string_max (a b : string) : string :=
  if String.ltb a b then b else a.

Definition is_datetime (c : cell) : bool :=
  match c with NaT | Stamp _ => true | _ => false end.

Definition cell_max (a b : cell) : result cell :=
  match a, b with
  | Stamp x, Stamp y => Ok (Stamp (Timestamp_max x y))
  | Text x, Text y => Ok (Text (string_max x y))
  | _, _ =>
      Raise (TypeError ("'>=' not supported between instances of '" +:+
                        type_name a +:+ "' and '" +:+ type_name b +:+ "'"))
  end.

Fixpoint max_from (best : cell) (s : Series) : result cell :=
  match s with
  | [] => Ok best
  | c :: s' => rbind (cell_max best c) (λ b, max_from b s')
  end.

Definition reduce_max (s : Series) (null : cell) : result cell :=
  match s with
  | [] => Ok null
  | c :: s' => max_from c s'
  end.

Definition series_max (s : Series) : result cell :=
  if decide (s = []) then Ok NaN
  else if forallb is_datetime s then reduce_max (dropna s) NaT
  else if isnull_all s then Ok NaN
  else reduce_max s NaN.

(** ** Strings *)

(** [str.isspace] on one character of the 8-bit range: TAB, LF, VT, FF, CR,
    FS, GS, RS, US, space, NEL and the no-break space. *)
Definition isspace (c : ascii) : bool :=
  let n := nat_of_ascii c in
  bool_decide (9 ≤ n ≤ 13 ∨ 28 ≤ n ≤ 32 ∨ n = 133 ∨ n = 160).

Definition starts_word (s : string) : bool :=
  match s with
  | String c _ => negb (isspace c)
  | EmptyString => false
  end.

(** [s.split()]: the maximal runs of non-whitespace characters of [s]. *)
Fixpoint split (s : string) : list string :=
  match s with
  | EmptyString => []
  | String c s' =>
      if isspace c then split s'
      else if starts_word s' then
        match split s' with
        | w :: ws => String c w :: ws
        | [] => [String c EmptyString]
        end
      else String c EmptyString :: split s'
  end.

(** [sep.join(l)] *)
Fixpoint join (sep : string) (l : list string) : string :=
  match l with
  | [] => ""
  | x :: l' =>
      match l' with
      | [] => x
      | _ :: _ => x +:+ sep +:+ join sep l'
      end
  end.

(** [s[:n]] *)
Fixpoint slice_to (n : nat) (s : string) : string :=
  match n, s with
  | S n', String c s' => String c (slice_to n' s')
  | _, _ => ""
  end.

Definition newline : string := String "010" "".

(** ** Aggregation (source lines 76-80) *)

Record Summary := mkSummary {
  total_failures : nat;
  by_dataset : counts;
  most_common_error : cell;
  most_recent : cell;
  recent_failures : DataFrame
}.

Definition aggregate (df : DataFrame) : result Summary :=
  let total := len df in
  rbind (getitem df "dataset") (λ ds,
  let by_ds := value_counts ds in
  rbind (getitem df "reason") (λ rs,
  rbind (if negb (isnull_all rs) then idxmax (value_counts rs)
         else Ok (Text "N/A")) (λ mce,
  rbind (getitem df "date") (λ dt,
  rbind (series_max dt) (λ recent,
  rbind (select df ["date"; "dataset"; "reason"]) (λ sel,
  Ok {| total_failures := total;
        by_dataset := by_ds;
        most_common_error := mce;
        most_recent := recent;
        recent_failures := head 5 sel |})))))).

(** ** Summary text (source lines 93-113) *)

Definition dataset_line (e : cell * nat) : string :=
  "  - " +:+ str e.1 +:+ ": " +:+ pretty e.2.

(** The reason as the recent-failures line shows it: [str(reason)[:60]]
    followed by the literal ["..."] of the f-string. *)
Definition render_reason (reason : cell) : string :=
  slice_to 60 (str reason) +:+ "...".

Definition failure_line (row : gmap string cell) : string :=
  "  - Date: " +:+ str (row_get row "date") +:+
  ", Dataset: " +:+ str (row_get row "dataset") +:+
  ", Reason: " +:+ render_reason (row_get row "reason").

(** The two loops that append to [summary_lines]. *)
Definition dataset_lines (s : Summary) : list string :=
  dataset_line <$> counts_head 5 (by_dataset s).

Definition failure_lines (s : Summary) : list string :=
  failure_line <$> rows (recent_failures s).

Definition summary_lines (s : Summary) : list string :=
  [ "Failed Query Log Report";
    "Total failed queries: " +:+ pretty (total_failures s);
    "Most recent failure: " +:+ str (most_recent s);
    "";
    "Failures by dataset (top 5):" ]
  ++ dataset_lines s
  ++ [ "";
       "Most common error: " +:+ str (most_common_error s);
       "";
       "Recent failures (top 5):" ]
  ++ failure_lines s.

(** The 300-word cap of lines 111-113. *)
Definition cap_words (text : string) : string :=
  let words := split text in
  if decide (300 < length words)
  then join " " (take 300 words) +:+ "..."
  else text.

Definition summary_text (s : Summary) : string :=
  cap_words (join newline (summary_lines s)).

(** ** The world of the Cloud Function *)

(** The chart written by [plt.savefig]. *)
Record Chart := mkChart {
  chart_title : string;
  chart_xlabel : string;
  chart_ylabel : string;
  chart_figsize : nat * nat;
  chart_bars : counts
}.

(** The document written by [pdf.output]. *)
Record Pdf := mkPdf {
  pdf_body : string;
  pdf_image : option Chart
}.

(** What a Drive file holds: a workbook with the cells of its first sheet,
    a PDF, or other bytes. *)
Inductive blob :=
  | Xlsx (sheet : DataFrame)
  | PdfBlob (p : Pdf)
  | Bytes (raw : string).

Record DriveFile := mkDriveFile {
  file_id : string;
  file_name : string;
  file_parents : list string;
  file_trashed : bool;
  file_content : blob
}.

(** The external calls that can raise on their own account (network,
    permissions, rendering back end, disk). *)
Inductive op :=
  | OpCredentials | OpBuild | OpListInput | OpDownload | OpReadExcel
  | OpPlot | OpPdf | OpMedia | OpListReport | OpUpdate | OpCreate.

(** What a run cannot change: the environment variables, which strings
    [json.loads] rejects (with its message), and which external calls fail
    (with the message of the exception). *)
Record World := mkWorld {
  environ : gmap string string;
  json_error : string → option string;
  fault : op → option string
}.

(** One value per [print] of the source, with the values it formats. *)
Inductive event :=
  | LogStart
  | ErrEnvMissing
  | ErrJson (msg : string)
  | LogCredentials
  | LogFolder (folder_id : string)
  | LogSearching
  | LogFilesFound (ids : list string)
  | ErrNoInput
  | LogFoundId (id : string)
  | LogDownloading
  | LogProgress (percent : nat)
  | LogDownloaded
  | LogLoading
  | LogShape (nrows ncols : nat)
  | ErrMissingColumn (col : string)
  | LogGenerating
  | LogPdfGenerated
  | LogUploading
  | LogUpdated (id : string)
  | LogCreated (id : string)
  | ErrException (msg : string).

(** What a run can change: the remote folder (in the order the list call
    returns files), the two fixed temporary files, and the printed log. *)
Record State := mkState {
  drive : list DriveFile;
  chart_file : option Chart;
  pdf_file : option Pdf;
  log : list event
}.

Definition response : Type := string * nat.

(** ** The monad of the function body *)

(** A statement ends normally, executes [return], or raises. *)
Inductive outcome (A : Type) :=
  | Val (a : A)
  | Return (r : response)
  | Throw (e : exn).
Arguments Val {A} a.
Arguments Return {A} r.
Arguments Throw {A} e.

Definition M (A : Type) : Type := State → outcome A * State.

Definition ret {A} (a : A) : M A := λ st, (Val a, st).

Definition bind {A B} (m : M A) (k : A → M B) : M B :=
  λ st, match m st with
        | (Val a, st') => k a st'
        | (Return r, st') => (Return r, st')
        | (Throw e, st') => (Throw e, st')
        end.

Notation "x <- m ;; k" := (bind m (λ x, k))
  (at level 100, m at next level, right associativity).
Notation "m ;; k" := (bind m (λ _, k))
  (at level 100, right associativity).

Definition return_ {A} (r : response) : M A := λ st, (Return r, st).
Definition throw {A} (e : exn) : M A := λ st, (Throw e, st).

Definition lift {A} (r : result A) : M A :=
  match r with
  | Ok a => ret a
  | Raise e => throw e
  end.

Definition gets {A} (f : State → A) : M A := λ st, (Val (f st), st).

(** The state after one more printed line. *)
Definition emit (e : event) (st : State) : State :=
  {| drive := drive st; chart_file := chart_file st;
     pdf_file := pdf_file st; log := log st ++ [e] |}.

Definition print (e : event) : M unit := λ st, (Val tt, emit e st).

Definition put_drive (d : list DriveFile) : M unit :=
  λ st, (Val tt, {| drive := d; chart_file := chart_file st;
                    pdf_file := pdf_file st; log := log st |}).

Definition put_chart (c : Chart) : M unit :=
  λ st, (Val tt, {| drive := drive st; chart_file := Some c;
                    pdf_file := pdf_file st; log := log st |}).

Definition put_pdf (p : Pdf) : M unit :=
  λ st, (Val tt, {| drive := drive st; chart_file := chart_file st;
                    pdf_file := Some p; log := log st |}).

(** An external call: raises when the world says so. *)
Definition external (w : World) (o : op) : M unit :=
  match fault w o with
  | Some msg => throw (ExternalError msg)
  | None => ret tt
  end.

(** ** The Drive calls *)

(** [files().list(q="'<folder>' in parents and name='<name>' and
    trashed=false")] *)
Definition files_list (folder name : string) (d : list DriveFile)
  : list DriveFile :=
  filter (λ f, folder ∈ file_parents f ∧ file_name f = name
               ∧ file_trashed f = false) d.

(** [files().update(fileId=id, media_body=media)] *)
Definition files_update (id : string) (media : blob) (d : list DriveFile)
  : list DriveFile :=
  (λ f, if decide (file_id f = id)
        then {| file_id := file_id f; file_name := file_name f;
                file_parents := file_parents f;
                file_trashed := file_trashed f; file_content := media |}
        else f) <$> d.

(** [files().create(body={name, parents: [folder]}, media_body=media)]: the
    store gives the new file an identifier no file has. *)
Definition files_create (folder name : string) (media : blob)
    (d : list DriveFile) : string * list DriveFile :=
  let id := fresh (file_id <$> d) in
  (id, d ++ [ {| file_id := id; file_name := name; file_parents := [folder];
                 file_trashed := false; file_content := media |} ]).

(** [files().get_media(fileId=id)] downloaded to the end. *)
Definition get_media (id : string) (d : list DriveFile) : result blob :=
  match list_find (λ f, file_id f = id) d with
  | Some (_, f) => Ok (file_content f)
  | None => Raise (ExternalError "File not found")
  end.

(** *** [pd.read_excel(fh)]

    The workbook's first sheet, cell by cell, goes through the parser's
    defaults: a text cell that spells one of the default NA strings becomes
    a blank, and a blank becomes [NaT] in a column whose other cells are all
    timestamps (a datetime column) and [NaN] in any other column, the
    all-blank column included.  Every row gets a cell for every column. *)

(** The default [na_values] of the parser (pandas 2). *)
Definition NA_STRINGS : list string :=
  [ ""; "#N/A"; "#N/A N/A"; "#NA"; "-1.#IND"; "-1.#QNAN"; "-NaN"; "-nan";
    "1.#IND"; "1.#QNAN"; "<NA>"; "N/A"; "NA"; "NULL"; "NaN"; "None"; "n/a";
    "nan"; "null" ].

Definition na_filter (c : cell) : cell :=
  match c with
  | Text t => if decide (t ∈ NA_STRINGS) then NaN else c
  | _ => c
  end.

Definition is_stamp (c : cell) : bool :=
  match c with Stamp _ => true | _ => false end.

(** A column is read as datetime when it has a timestamp and nothing but
    timestamps and blanks. *)
Definition datetime_column (s : Series) : bool :=
  forallb (λ c, isnull c || is_stamp c) s && existsb is_stamp s.

Definition fill_blank (datetime : bool) (c : cell) : cell :=
  if isnull c then (if datetime then NaT else NaN) else c.

(** One column of the sheet as the parser delivers it. *)
Definition parse_column (raw : Series) : Series :=
  let filtered := na_filter <$> raw in
  fill_blank (datetime_column filtered) <$> filtered.

Definition parse_cell (sheet : DataFrame) (col : string) (c : cell) : cell :=
  fill_blank (datetime_column (na_filter <$> column sheet col)) (na_filter c).

Definition parse_row (sheet : DataFrame) (r : gmap string cell)
  : gmap string cell :=
  list_to_map ((λ col, (col, parse_cell sheet col (row_get r col)))
               <$> columns sheet).

Definition parse_sheet (sheet : DataFrame) : DataFrame :=
  {| columns := columns sheet;
     rows := parse_row sheet <$> rows sheet |}.

Definition read_excel (b : blob) : result DataFrame :=
  match b with
  | Xlsx sheet => Ok (parse_sheet sheet)
  | _ => Raise (ValueError "Excel file format cannot be determined")
  end.

(** ** [generate_report] *)

Definition INPUT_NAME : string := "failed_logs.xlsx".
Definition REPORT_NAME : string := "failed_logs_report.pdf".

(** Python truthiness of [os.environ.get(key)]: a set, non-empty string. *)
Definition env_get (w : World) (key : string) : option string :=
  match environ w !! key with
  | Some v => if decide (v = "") then None else Some v
  | None => None
  end.

(** Steps 1 and 2: credentials, folder identifier, Drive service. *)
Definition load_config (w : World) : M string :=
  print LogStart;;
  match env_get w "GOOGLE_SERVICE_ACCOUNT_JSON", env_get w "DRIVE_FOLDER_ID" with
  | Some json, Some folder_id =>
      match json_error w json with
      | Some msg =>
          print (ErrJson msg);;
          return_ ("Error: Failed to parse GOOGLE_SERVICE_ACCOUNT_JSON: " +:+ msg, 500)
      | None =>
          external w OpCredentials;;
          print LogCredentials;;
          external w OpBuild;;
          print (LogFolder folder_id);;
          ret folder_id
      end
  | _, _ =>
      print ErrEnvMissing;;
      return_ ("Error: Required environment variables (GOOGLE_SERVICE_ACCOUNT_JSON, DRIVE_FOLDER_ID) are missing.", 500)
  end.

(** Steps 3 to 5: find, download and parse the spreadsheet.  The download
    loop is taken to finish with its first chunk. *)
Definition load_frame (w : World) (folder_id : string) : M DataFrame :=
  print LogSearching;;
  external w OpListInput;;
  d <- gets drive;;
  let files := files_list folder_id INPUT_NAME d in
  print (LogFilesFound (file_id <$> files));;
  match files with
  | [] =>
      print ErrNoInput;;
      return_ ("No failed_logs.xlsx found in Drive folder.", 404)
  | f :: _ =>
      let id := file_id f in
      print (LogFoundId id);;
      print LogDownloading;;
      external w OpDownload;;
      fh <- lift (get_media id d);;
      print (LogProgress 100);;
      print LogDownloaded;;
      print LogLoading;;
      external w OpReadExcel;;
      df <- lift (read_excel fh);;
      print (LogShape (len df) (length (columns df)));;
      ret df
  end.

Definition required_cols : list string := ["dataset"; "reason"; "date"].

(** Step 6: the loop [for col in required_cols], on the columns left. *)
Fixpoint validate (df : DataFrame) (cols : list string) : M unit :=
  match cols with
  | [] => ret tt
  | col :: rest =>
      if decide (col ∈ columns df) then validate df rest
      else
        print (ErrMissingColumn col);;
        return_ ("Error: Required column missing: " +:+ col, 500)
  end.

Definition bar_chart (vc : counts) : Chart :=
  {| chart_title := "Failures by Dataset"; chart_xlabel := "Dataset";
     chart_ylabel := "Count"; chart_figsize := (6, 3); chart_bars := vc |}.

(** [by_dataset.plot(kind='bar')]: pandas raises [IndexError] when it is
    given no bar to draw. *)
Definition plot_bar (vc : counts) : result Chart :=
  match vc with
  | [] => Raise (IndexError "index 0 is out of bounds for axis 0 with size 0")
  | _ :: _ => Ok (bar_chart vc)
  end.

(** Step 7: aggregate, plot, write the summary, compose the PDF.  The
    figure is opened first (the rendering back end may fail), then the bars
    are drawn and the file is saved. *)
Definition make_report (w : World) (df : DataFrame) : M unit :=
  print LogGenerating;;
  s <- lift (aggregate df);;
  external w OpPlot;;
  chart <- lift (plot_bar (by_dataset s));;
  put_chart chart;;
  let text := summary_text s in
  chart <- gets chart_file;;
  external w OpPdf;;
  put_pdf {| pdf_body := text; pdf_image := chart |};;
  print LogPdfGenerated.

(** Step 8: update the report in place, or create it. *)
Definition upload_report (w : World) (folder_id : string) : M unit :=
  print LogUploading;;
  external w OpMedia;;
  file <- gets pdf_file;;
  match file with
  | None => throw (ExternalError "No such file or directory")
  | Some pdf =>
      let media := PdfBlob pdf in
      external w OpListReport;;
      d <- gets drive;;
      match files_list folder_id REPORT_NAME d with
      | f :: _ =>
          let report_id := file_id f in
          external w OpUpdate;;
          put_drive (files_update report_id media d);;
          print (LogUpdated report_id)
      | [] =>
          external w OpCreate;;
          let new_report := files_create folder_id REPORT_NAME media d in
          put_drive new_report.2;;
          print (LogCreated new_report.1)
      end
  end.

(** The body of the [try]. *)
Definition body (w : World) : M response :=
  folder_id <- load_config w;;
  df <- load_frame w folder_id;;
  validate df required_cols;;
  make_report w df;;
  upload_report w folder_id;;
  ret ("PDF report generated and uploaded to Drive.", 200).

(** The entry point, with the catch-all handler of lines 160-162. *)
Definition generate_report (w : World) (st : State) : response * State :=
  match body w st with
  | (Val r, st') => (r, st')
  | (Return r, st') => (r, st')
  | (Throw e, st') =>
      (("Error generating PDF report: " +:+ exn_str e, 500),
       emit (ErrException (exn_str e)) st')
  end.

(** ** Vocabulary of the statements *)

(** Sum of the counts of a [value_counts] result. *)
Definition sum_counts (vc : counts) : nat := sum_list (vc.*2).

(** How many cells of a Series equal [c]. *)
Definition freq (c : cell) (s : Series) : nat :=
  length (filter (λ x, x = c) s).

(** How many cells of a Series are null. *)
Definition null_count (s : Series) : nat :=
  length (filter (λ c, isnull c = true) s).

(** The count recorded for label [k], 0 when it has none. *)
Fixpoint count_of (k : cell) (acc : counts) : nat :=
  match acc with
  | [] => 0
  | (k', n) :: acc' => if decide (k = k') then n else count_of k acc'
  end.

(** The labels of a counts list are distinct and its counts positive. *)
Definition well_keyed (acc : counts) : Prop :=
  NoDup (acc.*1) ∧ Forall (λ e, 0 < e.2) acc.

(** A string with no whitespace character. *)
Fixpoint no_space (s : string) : bool :=
  match s with
  | EmptyString => true
  | String c s' => negb (isspace c) && no_space s'
  end.

(** A token of [str.split]: non-empty and free of whitespace. *)
Definition is_word (w : string) : Prop := w ≠ "" ∧ no_space w = true.

(** The sheet passed step 6: it has the three required columns. *)
Definition validated (df : DataFrame) : Prop :=
  ∀ c, c ∈ required_cols → c ∈ columns df.

(** The folder and the two temporary files are as they were. *)
Definition same_files (st st' : State) : Prop :=
  drive st' = drive st ∧ chart_file st' = chart_file st
  ∧ pdf_file st' = pdf_file st.

(** The lines printed between two states do not include the line that opens
    step 7, "Generating PDF report". *)
Definition before_aggregation (st st' : State) : Prop :=
  ∃ evs, log st' = log st ++ evs ∧ LogGenerating ∉ evs.

(** The claims as the specification words them, for the inputs that
    refute them. *)

(** "The per-dataset counts sum to the total row count." *)
Definition counts_sum_to_total (df : DataFrame) : Prop :=
  ∀ s, aggregate df = Ok s → sum_counts (by_dataset s) = total_failures s.

(** "The value with the strictly highest frequency among non-null values." *)
Definition strictly_most_frequent (c : cell) (s : Series) : Prop :=
  c ∈ s ∧ isnull c = false ∧
  ∀ r, r ∈ s → isnull r = false → r ≠ c → freq r s < freq c s.

(** "The sentinel if and only if every reason is null; otherwise the reason
    with the strictly highest frequency." *)
Definition most_common_as_claimed (df : DataFrame) : Prop :=
  ∀ s, aggregate df = Ok s →
    (most_common_error s = Text "N/A" ↔ isnull_all (column df "reason") = true)
    ∧ (isnull_all (column df "reason") = false →
       strictly_most_frequent (most_common_error s) (column df "reason")).


(** "If the chart-render step fails, the report is still produced and
    published": the run succeeds and the folder holds a report PDF. *)
Definition publishes_without_chart (w : World) (st : State) : Prop :=
  is_Some (fault w OpPlot) →
  (generate_report w st).1.2 = 200
  ∧ ∃ folder_id f pdf,
      env_get w "DRIVE_FOLDER_ID" = Some folder_id
      ∧ f ∈ files_list folder_id REPORT_NAME (drive (generate_report w st).2)
      ∧ file_content f = PdfBlob pdf.

(** ** Sample inputs *)

Definition stamp_jan : Timestamp := mkTimestamp 2024 1 5 10 0 0.
Definition stamp_mar : Timestamp := mkTimestamp 2024 3 1 9 30 7.

Definition sample_row (d ds r : cell) : gmap string cell :=
  {[ "date" := d; "dataset" := ds; "reason" := r; "user" := Text "bob" ]}.

(** Four rows, not in date order; the third has no dataset and no date, the
    fourth no reason; one column more than the required ones. *)
Definition df_sample : DataFrame :=
  {| columns := ["date"; "dataset"; "reason"; "user"];
     rows := [ sample_row (Stamp stamp_mar) (Text "x") (Text "quota exceeded");
               sample_row (Stamp stamp_jan) (Text "y") (Text "syntax error at line 3");
               sample_row NaT NaN (Text "quota exceeded");
               sample_row (Stamp stamp_jan) (Text "x") NaN ] |}.

(** Two rows with two different reasons. *)
Definition df_tie : DataFrame :=
  {| columns := ["date"; "dataset"; "reason"; "user"];
     rows := [ sample_row (Stamp stamp_jan) (Text "x") (Text "timeout");
               sample_row (Stamp stamp_mar) (Text "y") (Text "quota exceeded") ] |}.

(** One row whose reason has 320 words. *)
Definition long_reason : string := join " " (replicate 320 "denied").

Definition df_long : DataFrame :=
  {| columns := ["date"; "dataset"; "reason"; "user"];
     rows := [ sample_row (Stamp stamp_jan) (Text "x") (Text long_reason) ] |}.

(** A sheet without the date column. *)
Definition df_nodate : DataFrame :=
  {| columns := ["dataset"; "reason"];
     rows := [ {[ "dataset" := Text "x"; "reason" := Text "timeout" ]} ] |}.


(** A configured world in which no external call fails, and the same world
    with a chart renderer that raises. *)
Definition w_ok : World :=
  {| environ := {[ "GOOGLE_SERVICE_ACCOUNT_JSON" := "{}";
                   "DRIVE_FOLDER_ID" := "folder-1" ]};
     json_error := λ _, None;
     fault := λ _, None |}.

Definition w_noplot : World :=
  {| environ := environ w_ok;
     json_error := json_error w_ok;
     fault := λ o, match o with
                   | OpPlot => Some "no display"
                   | _ => None
                   end |}.

Definition input_file (df : DataFrame) : DriveFile :=
  mkDriveFile "in-1" INPUT_NAME ["folder-1"] false (Xlsx df).

Definition old_report : DriveFile :=
  mkDriveFile "rep-1" REPORT_NAME ["folder-1"] false (Bytes "old").

(** A folder with the sheet only, one with a sheet that lacks a column, and
    one that already holds a report. *)
Definition st_fresh : State :=
  {| drive := [input_file df_sample];
     chart_file := None; pdf_file := None; log := [] |}.

Definition st_nodate : State :=
  {| drive := [input_file df_nodate];
     chart_file := None; pdf_file := None; log := [] |}.

Definition st_prior : State :=
  {| drive := [old_report; input_file df_sample];
     chart_file := None; pdf_file := None; log := [] |}.


(** ** Vocabulary of the further properties *)


(** [a <= b] on timestamps, as [Series.max] compares them. *)
Definition Timestamp_le (a b : Timestamp) : Prop :=
  lex_ltb (Timestamp_key b) (Timestamp_key a) = false.

(** The six responses of [generate_report]. *)
Definition success_response : response :=
  ("PDF report generated and uploaded to Drive.", 200).
Definition not_found_response : response :=
  ("No failed_logs.xlsx found in Drive folder.", 404).
Definition env_missing_response : response :=
  ("Error: Required environment variables (GOOGLE_SERVICE_ACCOUNT_JSON, DRIVE_FOLDER_ID) are missing.", 500).
Definition json_response (msg : string) : response :=
  ("Error: Failed to parse GOOGLE_SERVICE_ACCOUNT_JSON: " +:+ msg, 500).
Definition column_response (col : string) : response :=
  ("Error: Required column missing: " +:+ col, 500).
Definition caught (e : exn) : response :=
  ("Error generating PDF report: " +:+ exn_str e, 500).

(** How a run went: which step ended it, and with what. *)
Inductive run_path (w : World) (st : State) : response → State → Prop :=
  | path_config_return r st' :
      load_config w st = (Return r, st') →
      run_path w st r st'
  | path_config_raise e st0 :
      load_config w st = (Throw e, st0) →
      run_path w st (caught e) (emit (ErrException (exn_str e)) st0)
  | path_frame_return folder_id st0 r st' :
      load_config w st = (Val folder_id, st0) →
      load_frame w folder_id st0 = (Return r, st') →
      run_path w st r st'
  | path_frame_raise folder_id st0 e st1 :
      load_config w st = (Val folder_id, st0) →
      load_frame w folder_id st0 = (Throw e, st1) →
      run_path w st (caught e) (emit (ErrException (exn_str e)) st1)
  | path_validate_return folder_id st0 df st1 r st' :
      load_config w st = (Val folder_id, st0) →
      load_frame w folder_id st0 = (Val df, st1) →
      validate df required_cols st1 = (Return r, st') →
      run_path w st r st'
  | path_report_raise folder_id st0 df st1 e st2 :
      load_config w st = (Val folder_id, st0) →
      load_frame w folder_id st0 = (Val df, st1) →
      validated df →
      make_report w df st1 = (Throw e, st2) →
      run_path w st (caught e) (emit (ErrException (exn_str e)) st2)
  | path_upload_raise folder_id st0 df st1 st2 e st3 :
      load_config w st = (Val folder_id, st0) →
      load_frame w folder_id st0 = (Val df, st1) →
      validated df →
      make_report w df st1 = (Val tt, st2) →
      upload_report w folder_id st2 = (Throw e, st3) →
      run_path w st (caught e) (emit (ErrException (exn_str e)) st3)
  | path_success folder_id st0 df st1 st2 st' :
      load_config w st = (Val folder_id, st0) →
      load_frame w folder_id st0 = (Val df, st1) →
      validated df →
      make_report w df st1 = (Val tt, st2) →
      upload_report w folder_id st2 = (Val tt, st') →
      run_path w st success_response st'.

(** The [ERROR] lines of the log. *)
Definition is_error (e : event) : bool :=
  match e with
  | ErrEnvMissing | ErrJson _ | ErrNoInput | ErrMissingColumn _
  | ErrException _ => true
  | _ => false
  end.

(** What the store keeps of a file besides its content. *)
Definition file_meta (f : DriveFile) : string * string * list string * bool :=
  (file_id f, file_name f, file_parents f, file_trashed f).

(** ** Further sample inputs *)

(** The folder variable is set but empty, and every external call would
    fail. *)
Definition w_empty_folder : World :=
  {| environ := {[ "GOOGLE_SERVICE_ACCOUNT_JSON" := "{}";
                   "DRIVE_FOLDER_ID" := "" ]};
     json_error := λ _, None;
     fault := λ _, Some "unreachable" |}.

(** The credentials are not JSON. *)
Definition w_bad_json : World :=
  {| environ := environ w_ok;
     json_error := λ _, Some "Expecting value: line 1 column 1 (char 0)";
     fault := fault w_ok |}.

(** The update call fails. *)
Definition w_no_update : World :=
  {| environ := environ w_ok;
     json_error := json_error w_ok;
     fault := λ o, match o with
                   | OpUpdate => Some "quota exceeded"
                   | _ => None
                   end |}.

(** A folder whose only sheet is in the bin, next to a sheet of the same
    name in another folder. *)
Definition st_trashed : State :=
  {| drive := [ mkDriveFile "in-1" INPUT_NAME ["folder-1"] true (Xlsx df_sample);
                mkDriveFile "in-2" INPUT_NAME ["folder-2"] false (Xlsx df_sample) ];
     chart_file := None; pdf_file := None; log := [] |}.

(** A sheet whose date cells are all blank, with the text "N/A" as a
    reason. *)
Definition df_undated : DataFrame :=
  {| columns := ["date"; "dataset"; "reason"];
     rows := [ {[ "dataset" := Text "x"; "reason" := Text "timeout" ]};
               {[ "dataset" := Text "y"; "reason" := Text "N/A" ]} ] |}.

(** * Properties of the pandas operations *)

Section Counting.

Implicit Types (k c : cell) (acc vc : counts) (s : Series).

Lemma sum_counts_cons x vc : sum_counts (x :: vc) = x.2 + sum_counts vc.
Proof. reflexivity. Qed.

Lemma sum_counts_bump k acc : sum_counts (bump k acc) = S (sum_counts acc).
Proof.
  induction acc as [|[k' n] acc IH]; simpl; [done|].
  case_decide; rewrite !sum_counts_cons; simpl; [lia|].
  rewrite IH. lia.
Qed.

Lemma sum_counts_fold s acc :
  sum_counts (fold_left (λ a k, bump k a) s acc) = sum_counts acc + length s.
Proof.
  revert acc. induction s as [|k s IH]; intros acc; simpl; [lia|].
  rewrite IH, sum_counts_bump. lia.
Qed.

Lemma sum_counts_insert_desc x vc :
  sum_counts (insert_desc x vc) = x.2 + sum_counts vc.
Proof.
  induction vc as [|y vc IH]; simpl; [done|].
  case_decide; rewrite !sum_counts_cons; [done|].
  rewrite IH. lia.
Qed.

Lemma sum_counts_sort_desc vc : sum_counts (sort_desc vc) = sum_counts vc.
Proof.
  induction vc as [|x vc IH]; simpl; [done|].
  rewrite sum_counts_insert_desc, sum_counts_cons, IH. done.
Qed.

Lemma sum_counts_value_counts s :
  sum_counts (value_counts s) = length (dropna s).
Proof.
  unfold value_counts, tally.
  rewrite sum_counts_sort_desc, sum_counts_fold. done.
Qed.

Lemma length_dropna s : length (dropna s) + null_count s = length s.
Proof.
  unfold dropna, null_count.
  induction s as [|c s IH]; [done|].
  rewrite !filter_cons. destruct (isnull c) eqn:Hc.
  - rewrite decide_False, decide_True by done. simpl in *. lia.
  - rewrite decide_True, decide_False by done. simpl in *. lia.
Qed.

Lemma null_count_0 s : null_count s = 0 ↔ ∀ c, c ∈ s → isnull c = false.
Proof.
  unfold null_count. induction s as [|c s IH].
  - split; [intros _ ? ?%elem_of_nil; done | done].
  - rewrite filter_cons. destruct (isnull c) eqn:Hc.
    + rewrite decide_True by done. simpl. split; [lia|].
      intros H. specialize (H c (list_elem_of_here _ _)). congruence.
    + rewrite decide_False by done. rewrite IH. split.
      * intros H c' [->|?]%elem_of_cons; auto.
      * intros H c' ?. apply H. by right.
Qed.

(** [bump] on the recorded counts and on the labels. *)
Lemma count_of_bump_eq k acc : count_of k (bump k acc) = S (count_of k acc).
Proof.
  induction acc as [|[k' n] acc IH]; simpl.
  - by rewrite decide_True.
  - case_decide; simpl.
    + by rewrite decide_True.
    + by rewrite decide_False.
Qed.

Lemma count_of_bump_ne k k' acc :
  k ≠ k' → count_of k' (bump k acc) = count_of k' acc.
Proof.
  intros Hne. induction acc as [|[k2 n] acc IH]; simpl.
  - by rewrite decide_False.
  - repeat (case_decide; simpl); congruence.
Qed.

Lemma freq_cons c x s :
  freq c (x :: s) = (if decide (x = c) then 1 else 0) + freq c s.
Proof. unfold freq. rewrite filter_cons. by case_decide. Qed.

Lemma count_of_fold k s acc :
  count_of k (fold_left (λ a x, bump x a) s acc) = count_of k acc + freq k s.
Proof.
  revert acc. induction s as [|x s IH]; intros acc; simpl.
  - unfold freq. simpl. lia.
  - rewrite IH, freq_cons. case_decide as Hx.
    + subst. rewrite count_of_bump_eq. lia.
    + rewrite count_of_bump_ne by done. lia.
Qed.

Lemma count_of_tally k s : count_of k (tally s) = freq k s.
Proof. unfold tally. by rewrite count_of_fold. Qed.

Lemma bump_keys k acc k' :
  k' ∈ (bump k acc).*1 ↔ k' = k ∨ k' ∈ acc.*1.
Proof.
  induction acc as [|[k2 n] acc IH]; simpl.
  - rewrite list_elem_of_singleton, elem_of_nil. tauto.
  - case_decide; simpl; rewrite !elem_of_cons; [subst|rewrite IH]; tauto.
Qed.

Lemma bump_NoDup k acc : NoDup (acc.*1) → NoDup ((bump k acc).*1).
Proof.
  induction acc as [|[k2 n] acc IH]; simpl; intros Hnd.
  - apply NoDup_singleton.
  - apply NoDup_cons in Hnd as [Hk2 Hnd].
    case_decide as Hk; rewrite fmap_cons; simpl; apply NoDup_cons.
    + done.
    + split; [|by apply IH]. rewrite bump_keys. intros [->|?]; done.
Qed.

Lemma bump_positive k acc :
  Forall (λ e, 0 < e.2) acc → Forall (λ e, 0 < e.2) (bump k acc).
Proof.
  induction acc as [|[k2 n] acc IH]; simpl; intros Hpos.
  - apply Forall_singleton. simpl. lia.
  - apply Forall_cons in Hpos as [Hn Hpos]. simpl in Hn.
    case_decide; apply Forall_cons; simpl; split; auto; lia.
Qed.

Lemma fold_well_keyed s acc :
  well_keyed acc → well_keyed (fold_left (λ a x, bump x a) s acc).
Proof.
  revert acc. induction s as [|x s IH]; intros acc [Hnd Hpos]; simpl; [done|].
  apply IH. split; [by apply bump_NoDup | by apply bump_positive].
Qed.

Lemma tally_well_keyed s : well_keyed (tally s).
Proof. apply fold_well_keyed. split; [apply NoDup_nil_2 | apply Forall_nil_2]. Qed.

Lemma count_of_elem k n acc : NoDup (acc.*1) → (k, n) ∈ acc → count_of k acc = n.
Proof.
  induction acc as [|[k2 n2] acc IH]; simpl; intros Hnd Hin.
  - by apply elem_of_nil in Hin.
  - apply NoDup_cons in Hnd as [Hk2 Hnd].
    apply elem_of_cons in Hin as [[= -> ->]|Hin].
    + by rewrite decide_True.
    + rewrite decide_False; [by apply IH|].
      intros ->. apply Hk2. apply list_elem_of_fmap. by exists (k2, n).
Qed.

Lemma count_of_pos_elem k acc : 0 < count_of k acc → (k, count_of k acc) ∈ acc.
Proof.
  induction acc as [|[k2 n2] acc IH]; simpl; [lia|].
  case_decide as Hk; [subst; intros _; by left|].
  intros H. right. by apply IH.
Qed.

Lemma freq_pos c s : 0 < freq c s ↔ c ∈ s.
Proof.
  induction s as [|x s IH]; [unfold freq; simpl; split; [lia|by intros ?%elem_of_nil]|].
  rewrite freq_cons, elem_of_cons. case_decide; subst.
  - split; [by left | lia].
  - simpl. rewrite IH. split; [by right | by intros [->|?]].
Qed.

Lemma elem_of_tally k n s : (k, n) ∈ tally s ↔ k ∈ s ∧ n = freq k s.
Proof.
  destruct (tally_well_keyed s) as [Hnd Hpos]. split.
  - intros Hin. pose proof (count_of_elem _ _ _ Hnd Hin) as Hc.
    rewrite count_of_tally in Hc. subst n. split; [|done].
    apply freq_pos. rewrite Forall_forall in Hpos. by apply (Hpos _ Hin).
  - intros [Hin ->]. rewrite <- count_of_tally. apply count_of_pos_elem.
    rewrite count_of_tally. by apply freq_pos.
Qed.

(** The sort only reorders. *)
Lemma insert_desc_perm x vc : insert_desc x vc ≡ₚ x :: vc.
Proof.
  induction vc as [|y vc IH]; simpl; [done|].
  case_decide; [done|]. rewrite IH. apply Permutation_swap.
Qed.

Lemma sort_desc_perm vc : sort_desc vc ≡ₚ vc.
Proof.
  induction vc as [|x vc IH]; simpl; [done|].
  by rewrite insert_desc_perm, IH.
Qed.

Lemma freq_dropna c s : isnull c = false → freq c (dropna s) = freq c s.
Proof.
  intros Hc. unfold dropna. induction s as [|x s IH]; [done|].
  rewrite filter_cons, freq_cons. case_decide as Hx.
  - by rewrite freq_cons, IH.
  - rewrite IH. case_decide; [congruence|done].
Qed.

(** What [value_counts] holds: one entry per non-null value, with its
    number of occurrences. *)
Lemma elem_of_value_counts k n s :
  (k, n) ∈ value_counts s ↔ k ∈ s ∧ isnull k = false ∧ n = freq k s.
Proof.
  unfold value_counts. rewrite sort_desc_perm, elem_of_tally.
  unfold dropna at 1. rewrite list_elem_of_filter. split.
  - intros [[Hk ?] ->]. by rewrite freq_dropna.
  - intros (? & Hk & ->). by rewrite freq_dropna.
Qed.

Lemma isnull_all_spec s :
  isnull_all s = true ↔ ∀ c, c ∈ s → isnull c = true.
Proof.
  unfold isnull_all. rewrite forallb_forall.
  split; intros H c Hc; apply H; by apply list_elem_of_In.
Qed.

Lemma value_counts_nil s : value_counts s = [] ↔ isnull_all s = true.
Proof.
  rewrite isnull_all_spec. split.
  - intros Hnil c Hc. destruct (isnull c) eqn:Hn; [done|].
    assert ((c, freq c s) ∈ value_counts s) as Hin
      by (by apply elem_of_value_counts).
    rewrite Hnil in Hin. by apply elem_of_nil in Hin.
  - intros Hall. destruct (value_counts s) as [|[k n] vc] eqn:Hvc; [done|].
    assert ((k, n) ∈ value_counts s) as Hin by (rewrite Hvc; by left).
    apply elem_of_value_counts in Hin as (Hk & Hn & _).
    apply Hall in Hk. rewrite Hn in Hk. done.
Qed.

(** [idxmax] returns a label whose count no other count exceeds. *)
Lemma idxmax_go_spec best vc :
  ∃ e, e ∈ best :: vc ∧ idxmax_go best vc = e.1
       ∧ ∀ e', e' ∈ best :: vc → e'.2 ≤ e.2.
Proof.
  revert best. induction vc as [|x vc IH]; intros best; simpl.
  - exists best. split; [by left|]. split; [done|].
    intros e' ->%list_elem_of_singleton. done.
  - destruct (IH (if decide (best.2 < x.2) then x else best))
      as (e & Hin & -> & Hmax).
    exists e. split; [|split; [done|]].
    + case_decide; rewrite !elem_of_cons in *; tauto.
    + intros e' He'. pose proof (Hmax _ Hin) as Hself.
      assert (∀ y, y ∈ vc → y.2 ≤ e.2) as Hvc
        by (intros y Hy; apply Hmax; by right).
      pose proof (Hmax _ (list_elem_of_here _ _)) as Hhd.
      case_decide; simpl in *;
        apply elem_of_cons in He' as [->|[->|?]%elem_of_cons]; auto; lia.
Qed.

Lemma idxmax_spec vc :
  vc ≠ [] →
  ∃ k n, idxmax vc = Ok k ∧ (k, n) ∈ vc ∧ ∀ e, e ∈ vc → e.2 ≤ n.
Proof.
  destruct vc as [|x vc]; [done|]. intros _. simpl.
  destruct (idxmax_go_spec x vc) as ([k n] & Hin & Heq & Hmax).
  exists k, n. by rewrite Heq.
Qed.

End Counting.

(** * Properties of the string operations *)

Section Strings.

Implicit Types (s w rest : string) (ws : list string) (c : ascii).

Lemma list_app_nil_l ws : [] ++ ws = ws.
Proof. reflexivity. Qed.

Lemma str_app_nil_l s : "" +:+ s = s.
Proof. reflexivity. Qed.

Lemma str_app_cons c s1 s2 : String c s1 +:+ s2 = String c (s1 +:+ s2).
Proof. reflexivity. Qed.

Lemma str_app_nil_r s : s +:+ "" = s.
Proof. induction s as [|c s IH]; [done|]. by rewrite str_app_cons, IH. Qed.

Lemma str_app_assoc s1 s2 s3 : (s1 +:+ s2) +:+ s3 = s1 +:+ s2 +:+ s3.
Proof. induction s1 as [|c s1 IH]; [done|]. by rewrite !str_app_cons, IH. Qed.

Lemma str_length_app s1 s2 :
  String.length (s1 +:+ s2) = String.length s1 + String.length s2.
Proof. induction s1 as [|c s1 IH]; [done|]. rewrite str_app_cons. simpl. by rewrite IH. Qed.

(** [s[:n]] is a prefix of [s], of length [min n (len s)]. *)
Lemma slice_to_all n s : String.length s ≤ n → slice_to n s = s.
Proof.
  revert n. induction s as [|c s IH]; intros [|n] Hn; simpl in *; try done; try lia.
  f_equal. apply IH. lia.
Qed.

Lemma slice_to_length n s :
  n ≤ String.length s → String.length (slice_to n s) = n.
Proof.
  revert n. induction s as [|c s IH]; intros [|n] Hn; simpl in *; try done; try lia.
  f_equal. apply IH. lia.
Qed.

Lemma slice_to_prefix n s : ∃ rest, s = slice_to n s +:+ rest.
Proof.
  revert n. induction s as [|c s IH]; intros [|n]; simpl.
  - by exists "".
  - by exists "".
  - by exists (String c s).
  - destruct (IH n) as [rest Hrest]. exists rest. rewrite str_app_cons. by f_equal.
Qed.

Lemma slice_to_app (first rest : string) :
  slice_to (String.length first) (first +:+ rest) = first.
Proof. induction first as [|c first IH]; simpl; [by destruct rest|]. by rewrite IH. Qed.

(** Tokens of [split]. *)
Lemma no_space_app s1 s2 :
  no_space (s1 +:+ s2) = no_space s1 && no_space s2.
Proof.
  induction s1 as [|c s1 IH]; [done|].
  rewrite str_app_cons. simpl. rewrite IH. by rewrite andb_assoc.
Qed.

Lemma is_word_app w s : is_word w → no_space s = true → is_word (w +:+ s).
Proof.
  intros [Hne Hns] Hs. split.
  - destruct w; [done|]. by rewrite str_app_cons.
  - by rewrite no_space_app, Hns, Hs.
Qed.

Lemma is_word_cons c w :
  isspace c = false → no_space w = true → is_word (String c w).
Proof. intros Hc Hw. split; [done|]. simpl. by rewrite Hc, Hw. Qed.

Lemma split_words s : Forall is_word (split s).
Proof.
  induction s as [|c s IH]; simpl; [constructor|].
  destruct (isspace c) eqn:Hc; [done|].
  destruct (starts_word s).
  - destruct (split s) as [|w ws]; [by repeat constructor; apply is_word_cons|].
    apply Forall_cons in IH as [[_ Hw] Hws].
    constructor; [by apply is_word_cons | done].
  - constructor; [by apply is_word_cons | done].
Qed.

(** A word in front of a gap is the first token. *)
Lemma split_app_word w rest :
  is_word w → starts_word rest = false → split (w +:+ rest) = w :: split rest.
Proof.
  intros [Hne Hns] Hrest. induction w as [|c w IH]; [done|].
  simpl in Hns. apply andb_true_iff in Hns as [Hc Hw].
  apply negb_true_iff in Hc. rewrite str_app_cons. simpl. rewrite Hc.
  destruct w as [|c' w].
  - rewrite str_app_nil_l, Hrest. done.
  - assert (starts_word (String c' w +:+ rest) = true) as ->.
    { rewrite str_app_cons. simpl. simpl in Hw.
      by apply andb_true_iff in Hw as [-> _]. }
    rewrite IH; done.
Qed.

Lemma split_word w : is_word w → split w = [w].
Proof.
  intros Hw. rewrite <- (str_app_nil_r w) at 1.
  by rewrite split_app_word.
Qed.

Lemma join_cons sep w w' ws :
  join sep (w :: w' :: ws) = w +:+ sep +:+ join sep (w' :: ws).
Proof. reflexivity. Qed.

Lemma split_space_cons w rest :
  is_word w → split (w +:+ " " +:+ rest) = w :: split rest.
Proof. intros Hw. by rewrite split_app_word. Qed.

(** Splitting what [" ".join] made of words gives the words back. *)
Lemma split_join ws : Forall is_word ws → split (join " " ws) = ws.
Proof.
  induction ws as [|w ws IH]; intros Hws; [done|].
  apply Forall_cons in Hws as [Hw Hws].
  destruct ws as [|w' ws]; [by apply split_word|].
  rewrite join_cons, split_space_cons by done. by rewrite IH.
Qed.

(** With a suffix without whitespace appended, only the last token
    changes: the suffix sticks to it. *)
Lemma split_join_suffix ws w sfx :
  Forall is_word (ws ++ [w]) → no_space sfx = true →
  split (join " " (ws ++ [w]) +:+ sfx) = ws ++ [w +:+ sfx].
Proof.
  intros Hws Hsfx. induction ws as [|x ws IH].
  - rewrite list_app_nil_l in *. apply (Forall_singleton is_word) in Hws.
    change (join " " [w]) with w. by apply split_word, is_word_app.
  - rewrite <- !app_comm_cons in *. apply Forall_cons in Hws as [Hx Hws].
    destruct (ws ++ [w]) as [|y l] eqn:Hl; [by destruct ws|].
    rewrite join_cons, !str_app_assoc, split_space_cons by done.
    by rewrite IH.
Qed.

End Strings.

(** * The sheet as [pd.read_excel] delivers it *)

Section Reading.

Implicit Types (sheet : DataFrame) (raw : Series) (r : gmap string cell).

Lemma lookup_list_to_map_fn (g : string → cell) (cols : list string) col :
  (list_to_map ((λ c, (c, g c)) <$> cols) : gmap string cell) !! col
  = if decide (col ∈ cols) then Some (g col) else None.
Proof.
  induction cols as [|c cols IH].
  - rewrite decide_False by apply not_elem_of_nil. apply lookup_empty.
  - rewrite fmap_cons, list_to_map_cons. simpl.
    destruct (decide (c = col)) as [->|Hne].
    + rewrite lookup_insert_eq. by rewrite decide_True by left.
    + rewrite lookup_insert_ne, IH by done.
      destruct (decide (col ∈ cols)) as [Hin|Hin].
      * by rewrite decide_True by (by right).
      * rewrite decide_False; [done|]. by intros [->|?]%elem_of_cons.
Qed.

Lemma row_get_parse_row sheet r col :
  row_get (parse_row sheet r) col
  = if decide (col ∈ columns sheet)
    then parse_cell sheet col (row_get r col) else NaN.
Proof.
  unfold row_get at 1, parse_row. rewrite lookup_list_to_map_fn.
  by case_decide.
Qed.

(** Every column of the parsed sheet is the parsed column of the sheet. *)
Lemma column_parse_sheet sheet col :
  col ∈ columns sheet →
  column (parse_sheet sheet) col = parse_column (column sheet col).
Proof.
  intros Hcol. unfold column, parse_sheet, parse_column. simpl.
  rewrite <- !list_fmap_compose. apply list_fmap_ext. intros i r _. simpl.
  rewrite row_get_parse_row, decide_True by done.
  unfold parse_cell, column. by rewrite list_fmap_compose.
Qed.

Lemma read_excel_Ok b df :
  read_excel b = Ok df → ∃ sheet, b = Xlsx sheet ∧ df = parse_sheet sheet.
Proof. destruct b; try done. intros [= <-]. by eexists. Qed.

(** A text cell the parser delivers is none of the strings it reads as
    blanks. *)
Lemma parse_column_text raw t : Text t ∈ parse_column raw → t ∉ NA_STRINGS.
Proof.
  unfold parse_column. intros (c & Hc & Hin)%list_elem_of_fmap.
  unfold fill_blank in Hc. destruct (isnull c) eqn:Hnull.
  { by destruct (datetime_column _). }
  subst c. apply list_elem_of_fmap in Hin as (c & Hc & _).
  destruct c; simpl in Hc; try done. case_decide; [done|]. by injection Hc as ->.
Qed.

(** A parsed column without text is a datetime column that holds a
    timestamp, or it is blank from top to bottom, which gives a float
    column of [NaN]. *)
Lemma parse_column_no_text raw :
  (∀ t, Text t ∉ parse_column raw) →
  (forallb is_datetime (parse_column raw) = true
   ∧ ∃ t, Stamp t ∈ parse_column raw)
  ∨ (∀ c, c ∈ parse_column raw → c = NaN).
Proof.
  unfold parse_column. set (filtered := na_filter <$> raw). simpl.
  intros Htext.
  assert (∀ c, c ∈ filtered → isnull c || is_stamp c = true) as Hall.
  { intros c Hc. destruct c; try done. destruct (Htext s).
    apply list_elem_of_fmap. exists (Text s). split; [|done].
    unfold fill_blank. simpl. done. }
  destruct (datetime_column filtered) eqn:Hdt.
  - left. apply andb_prop in Hdt as [_ Hex].
    apply existsb_exists in Hex as (c & Hc%list_elem_of_In & Hst).
    destruct c; try done. split.
    + apply forallb_forall. intros c (c0 & -> & Hc0)%list_elem_of_In%list_elem_of_fmap.
      apply Hall in Hc0. by destruct c0.
    + exists t. apply list_elem_of_fmap. by exists (Stamp t).
  - right. intros c (c0 & -> & Hc0)%list_elem_of_fmap.
    unfold datetime_column in Hdt.
    assert (forallb (λ c, isnull c || is_stamp c) filtered = true) as Hfa.
    { apply forallb_forall. intros c Hc%list_elem_of_In. by apply Hall. }
    rewrite Hfa in Hdt. simpl in Hdt.
    pose proof (Hall _ Hc0) as Hk. destruct c0; try done.
    assert (existsb is_stamp filtered = true) as Hex; [|congruence].
    apply existsb_exists. exists (Stamp t). split; [by apply list_elem_of_In|done].
Qed.

End Reading.

(** * The aggregator *)

Section Aggregator.

Implicit Types (df : DataFrame) (s : Summary).

Lemma getitem_Ok df col x :
  getitem df col = Ok x → col ∈ columns df ∧ x = column df col.
Proof. unfold getitem. case_decide; [|done]. by intros [= <-]. Qed.

Lemma select_Ok df cols sel :
  select df cols = Ok sel →
  columns sel = cols
  ∧ rows sel = (λ r, filter (λ kv, kv.1 ∈ cols) r) <$> rows df.
Proof.
  unfold select. destruct (list_find _ cols) as [[? ?]|]; [done|].
  by intros [= <-].
Qed.

(** What a completed aggregation computed, field by field. *)
Lemma aggregate_Ok df s :
  aggregate df = Ok s →
  total_failures s = len df
  ∧ by_dataset s = value_counts (column df "dataset")
  ∧ (if negb (isnull_all (column df "reason"))
     then idxmax (value_counts (column df "reason"))
     else Ok (Text "N/A")) = Ok (most_common_error s)
  ∧ series_max (column df "date") = Ok (most_recent s)
  ∧ columns (recent_failures s) = ["date"; "dataset"; "reason"]
  ∧ rows (recent_failures s) =
      take 5 ((λ r, filter (λ kv, kv.1 ∈ ["date"; "dataset"; "reason"]) r)
              <$> rows df).
Proof.
  unfold aggregate. intros H.
  destruct (getitem df "dataset") as [ds|] eqn:Hds; [|done].
  apply getitem_Ok in Hds as [_ ->]. simpl in H.
  destruct (getitem df "reason") as [rs|] eqn:Hrs; [|done].
  apply getitem_Ok in Hrs as [_ ->]. simpl in H.
  destruct (if negb _ then _ else _) as [mce|] eqn:Hmce; [|done]. simpl in H.
  destruct (getitem df "date") as [dt|] eqn:Hdt; [|done].
  apply getitem_Ok in Hdt as [_ ->]. simpl in H.
  destruct (series_max _) as [recent|] eqn:Hmax; [|done]. simpl in H.
  destruct (select df _) as [sel|] eqn:Hsel; [|done]. simpl in H.
  apply select_Ok in Hsel as [Hc Hr]. injection H as <-. simpl.
  by rewrite Hc, Hr.
Qed.

Lemma length_column df col : length (column df col) = len df.
Proof. unfold column, len. apply length_fmap. Qed.

Lemma validated_columns df :
  validated df →
  "dataset" ∈ columns df ∧ "reason" ∈ columns df ∧ "date" ∈ columns df.
Proof.
  intros H. unfold validated, required_cols in H.
  repeat split; apply H; rewrite !elem_of_cons; tauto.
Qed.

Lemma select_validated df cols :
  (∀ c, c ∈ cols → c ∈ columns df) →
  select df cols =
    Ok {| columns := cols;
          rows := (λ r, filter (λ kv, kv.1 ∈ cols) r) <$> rows df |}.
Proof.
  intros Hcols. unfold select.
  destruct (list_find _ cols) as [[i c]|] eqn:Hfind; [|done].
  apply list_find_Some in Hfind as (Hc%list_elem_of_lookup_2 & Hmiss & _).
  by apply Hcols in Hc.
Qed.

(** The maximum of a datetime column (timestamps and blanks) is defined. *)
Lemma max_from_stamps t (l : Series) :
  Forall (λ c, ∃ u, c = Stamp u) l → ∃ u, max_from (Stamp t) l = Ok (Stamp u).
Proof.
  revert t. induction l as [|c l IH]; intros t Hl; simpl; [by eexists|].
  apply Forall_cons in Hl as [[u ->] Hl]. simpl. by apply IH.
Qed.

Lemma series_max_datetime (dates : Series) :
  forallb is_datetime dates = true → ∃ m, series_max dates = Ok m.
Proof.
  intros Hdt. unfold series_max. case_decide; [by eexists|]. rewrite Hdt.
  assert (Forall (λ c, ∃ u, c = Stamp u) (dropna dates)) as Hst.
  { apply Forall_forall. intros c [Hc Hin]%list_elem_of_filter.
    rewrite forallb_forall in Hdt. apply list_elem_of_In, Hdt in Hin.
    destruct c; try done. by eexists. }
  destruct (dropna dates) as [|c l]; simpl; [by eexists|].
  apply Forall_cons in Hst as [[t ->] Hl].
  destruct (max_from_stamps t l Hl) as [u ->]. by eexists.
Qed.

(** On a validated sheet the aggregation completes whenever the maximum of
    the date column is defined; nothing else in it can raise. *)
Lemma aggregate_total df m :
  validated df → series_max (column df "date") = Ok m →
  ∃ s, aggregate df = Ok s.
Proof.
  intros (Hds & Hrs & Hdt)%validated_columns Hmax.
  unfold aggregate, getitem. rewrite !decide_True by done. simpl.
  assert (∃ mce, (if negb (isnull_all (column df "reason"))
                  then idxmax (value_counts (column df "reason"))
                  else Ok (Text "N/A")) = Ok mce) as [mce ->].
  { destruct (isnull_all (column df "reason")) eqn:Hall; simpl; [by eexists|].
    destruct (idxmax_spec (value_counts (column df "reason")))
      as (k & n & -> & _); [|by eexists].
    rewrite value_counts_nil. congruence. }
  simpl. rewrite Hmax. simpl.
  rewrite select_validated; [by eexists|].
  intros c. rewrite !elem_of_cons, elem_of_nil. intros [->|[->|[->|[]]]]; done.
Qed.

(** C1 (fails as stated, on any sheet with a blank dataset cell).  Amended:
    for every validated row set (whose date column has a maximum) the
    aggregation completes and the per-dataset counts sum to the number of
    rows whose dataset value is not null; together with the null rows they
    make up the total, so the sum equals the total exactly when no dataset
    value is null. *)
Theorem by_dataset_sum_nonnull df m :
  validated df → series_max (column df "date") = Ok m →
  ∃ s, aggregate df = Ok s
    ∧ sum_counts (by_dataset s) + null_count (column df "dataset")
        = total_failures s
    ∧ (sum_counts (by_dataset s) = total_failures s
       ↔ ∀ c, c ∈ column df "dataset" → isnull c = false).
Proof.
  intros Hval Hmax. destruct (aggregate_total df m Hval Hmax) as [s Hs].
  exists s. split; [done|]. revert Hs.
  intros (Htot & Hby & _)%aggregate_Ok.
  rewrite Htot, Hby, sum_counts_value_counts, <- null_count_0.
  pose proof (length_dropna (column df "dataset")) as Hlen.
  rewrite length_column in Hlen. split; lia.
Qed.

(** C10: on every validated row set (whose date column has a maximum) the
    aggregation completes, and rows whose dataset value is null are left out
    of [by_dataset]: every entry has a non-null label and counts exactly the
    rows with that dataset value; the bars of the chart and the per-dataset
    summary lines are made from these entries only; the counts sum to the
    number of rows with a non-null dataset value. *)
Theorem null_datasets_excluded df m :
  validated df → series_max (column df "date") = Ok m →
  ∃ s, aggregate df = Ok s
    ∧ (∀ k n, (k, n) ∈ by_dataset s →
         isnull k = false ∧ 0 < n ∧ n = freq k (column df "dataset"))
    ∧ (∀ bar, bar ∈ chart_bars (bar_chart (by_dataset s)) →
         isnull bar.1 = false)
    ∧ (∀ line, line ∈ dataset_lines s →
         ∃ k n, (k, n) ∈ by_dataset s ∧ isnull k = false
                ∧ line = "  - " +:+ str k +:+ ": " +:+ pretty n)
    ∧ sum_counts (by_dataset s) = length (dropna (column df "dataset")).
Proof.
  intros Hval Hmax. destruct (aggregate_total df m Hval Hmax) as [s Hs].
  exists s. split; [done|]. revert Hs.
  intros (_ & Hby & _)%aggregate_Ok.
  assert (∀ k n, (k, n) ∈ by_dataset s →
     isnull k = false ∧ 0 < n ∧ n = freq k (column df "dataset")) as Hent.
  { intros k n Hin. rewrite Hby in Hin.
    apply elem_of_value_counts in Hin as (Hk & Hn & ->).
    split; [done|]. split; [by apply freq_pos | done]. }
  split; [done|]. split; [|split].
  - intros [k n] Hbar. simpl in *. by apply Hent in Hbar as [? _].
  - intros line Hline. unfold dataset_lines, counts_head in Hline.
    apply list_elem_of_fmap in Hline as ([k n] & -> & Hin).
    apply elem_of_take in Hin as (i & Hin & _).
    apply list_elem_of_lookup_2 in Hin.
    exists k, n. split; [done|]. by apply Hent in Hin as [? _].
  - by rewrite Hby, sum_counts_value_counts.
Qed.

Lemma NA_sentinel : "N/A" ∈ NA_STRINGS.
Proof. unfold NA_STRINGS. do 11 right. by left. Qed.

(** The reason column the parser delivers never holds the text "N/A". *)
Lemma read_excel_no_sentinel b df col :
  read_excel b = Ok df → col ∈ columns df → Text "N/A" ∉ column df col.
Proof.
  intros (sheet & -> & ->)%read_excel_Ok Hcol Hin.
  rewrite column_parse_sheet in Hin by done.
  apply parse_column_text in Hin. apply Hin, NA_sentinel.
Qed.

(** C3 (fails as stated, on any sheet with tied reasons).  Amended: on
    every validated row set read from the sheet (whose date column has a
    maximum) the aggregation completes, and [most_common_error] is the
    sentinel "N/A" if and only if every reason value is null; otherwise it
    is a non-null reason value of the row set that no other non-null reason
    value occurs more often than (on a tie, one of the most frequent
    values). *)
Theorem most_common_error_spec b df m :
  read_excel b = Ok df →
  validated df → series_max (column df "date") = Ok m →
  let rs := column df "reason" in
  ∃ s, aggregate df = Ok s
    ∧ (most_common_error s = Text "N/A" ↔ isnull_all rs = true)
    ∧ (isnull_all rs = false →
         most_common_error s ∈ rs
         ∧ isnull (most_common_error s) = false
         ∧ ∀ r, r ∈ rs → isnull r = false →
             freq r rs ≤ freq (most_common_error s) rs).
Proof.
  intros Hread Hval Hdate rs.
  destruct (aggregate_total df m Hval Hdate) as [s Hs].
  exists s. split; [done|]. revert Hs.
  intros (_ & _ & Hmce & _)%aggregate_Ok. fold rs in Hmce.
  destruct (isnull_all rs) eqn:Hall; simpl in Hmce.
  - injection Hmce as <-. by split.
  - destruct (idxmax_spec (value_counts rs)) as (k & n & Hk & Hin & Hmax).
    { rewrite value_counts_nil. congruence. }
    rewrite Hk in Hmce. injection Hmce as <-.
    apply elem_of_value_counts in Hin as (Hkin & Hnn & ->).
    split.
    + split; [|done]. intros ->.
      destruct (read_excel_no_sentinel b df "reason" Hread); [|done].
      by apply validated_columns in Hval as (_ & ? & _).
    + intros _. split; [done|]. split; [done|]. intros r Hr Hrn.
      apply (Hmax (r, freq r rs)). by apply elem_of_value_counts.
Qed.

(** C4: on every validated row set (whose date column has a maximum) the
    aggregation completes, [recent_failures] has the columns date, dataset
    and reason, and its rows are the first five rows of the sheet in sheet
    order (all of them when there are fewer): row [i] of the result is row
    [i] of the input restricted to these columns, whatever the dates are. *)
Theorem recent_failures_first_five df m :
  validated df → series_max (column df "date") = Ok m →
  ∃ s, aggregate df = Ok s
    ∧ columns (recent_failures s) = ["date"; "dataset"; "reason"]
    ∧ length (rows (recent_failures s)) = min 5 (len df)
    ∧ ∀ i, i < min 5 (len df) →
        ∃ r r0, rows (recent_failures s) !! i = Some r
                ∧ rows df !! i = Some r0
                ∧ ∀ c, r !! c = if decide (c ∈ ["date"; "dataset"; "reason"])
                                then r0 !! c else None.
Proof.
  intros Hval Hmax. destruct (aggregate_total df m Hval Hmax) as [s Hs].
  exists s. split; [done|]. revert Hs.
  intros (_ & _ & _ & _ & Hcols & Hrows)%aggregate_Ok.
  split; [done|]. rewrite Hrows. split.
  - by rewrite length_take, length_fmap.
  - intros i Hi. unfold len in Hi.
    destruct (lookup_lt_is_Some_2 (rows df) i) as [r0 Hr0]; [lia|].
    eexists _, r0. split; [|split; [done|]].
    + rewrite lookup_take_lt by lia. by rewrite list_lookup_fmap, Hr0.
    + intros c. case_decide as Hc.
      * destruct (r0 !! c) as [x|] eqn:Hx.
        -- by apply map_lookup_filter_Some.
        -- apply map_lookup_filter_None. by left.
      * apply map_lookup_filter_None. right. intros x _ Hp. done.
Qed.

(** Restricting a row to some columns keeps the cells of these columns. *)
Lemma row_get_restrict (cols : list string) (row : gmap string cell) c :
  c ∈ cols → row_get (filter (λ kv, kv.1 ∈ cols) row) c = row_get row c.
Proof.
  intros Hc. unfold row_get.
  destruct (row !! c) as [x|] eqn:Hx.
  - by rewrite (proj2 (map_lookup_filter_Some _ row c x)).
  - rewrite (proj2 (map_lookup_filter_None _ row c)); [done|]. by left.
Qed.

(** The reason as a recent-failures line shows it: cut after 60
    characters when longer, with "..." appended in either case. *)
Lemma render_reason_truncates (reason : cell) :
  (60 < String.length (str reason) →
     ∃ first rest, str reason = first +:+ rest
                   ∧ String.length first = 60
                   ∧ render_reason reason = first +:+ "...")
  ∧ (String.length (str reason) ≤ 60 →
       render_reason reason = str reason +:+ "...").
Proof.
  split.
  - intros Hlen. unfold render_reason.
    destruct (slice_to_prefix 60 (str reason)) as [rest Hrest].
    exists (slice_to 60 (str reason)), rest.
    split; [done|]. split; [|done]. apply slice_to_length; lia.
  - intros Hlen. unfold render_reason. by rewrite slice_to_all.
Qed.

(** C5: on every validated row set (whose date column has a maximum) the
    aggregation completes and the summary ends with one recent-failures
    line per row of the first five, in sheet order.  The line of a row
    shows its date, its dataset and its reason; a reason text of more than
    60 characters is shown as exactly its first 60 characters followed by
    "...", a text of at most 60 characters intact followed by the same
    "...", and a blank reason as "nan...". *)
Theorem reason_rendered_in_summary df m :
  validated df → series_max (column df "date") = Ok m →
  ∃ s, aggregate df = Ok s
    ∧ length (failure_lines s) = min 5 (len df)
    ∧ (∃ front, summary_lines s = front ++ failure_lines s
                ∧ length front = 9 + min 5 (length (by_dataset s)))
    ∧ ∀ i row, i < 5 → rows df !! i = Some row →
        ∃ rendered,
          failure_lines s !! i
            = Some ("  - Date: " +:+ str (row_get row "date") +:+
                    ", Dataset: " +:+ str (row_get row "dataset") +:+
                    ", Reason: " +:+ rendered)
          ∧ (∀ t, row_get row "reason" = Text t →
               (60 < String.length t →
                  ∃ first rest, t = first +:+ rest
                                ∧ String.length first = 60
                                ∧ rendered = first +:+ "...")
               ∧ (String.length t ≤ 60 → rendered = t +:+ "..."))
          ∧ (row_get row "reason" = NaN → rendered = "nan...").
Proof.
  intros Hval Hmax. destruct (aggregate_total df m Hval Hmax) as [s Hs].
  exists s. split; [done|].
  apply aggregate_Ok in Hs as (_ & _ & _ & _ & _ & Hrows).
  unfold failure_lines. rewrite Hrows. split; [|split].
  - by rewrite length_fmap, length_take, length_fmap.
  - exists (take (9 + min 5 (length (by_dataset s))) (summary_lines s)).
    assert (length (dataset_lines s) = min 5 (length (by_dataset s))) as Hds.
    { unfold dataset_lines, counts_head. by rewrite length_fmap, length_take. }
    unfold summary_lines, failure_lines. rewrite Hrows.
    rewrite !app_assoc, take_app_length'; [|rewrite !length_app, Hds; simpl; lia].
    split; [done|]. rewrite !length_app, Hds. simpl. lia.
  - intros i row Hi Hrow. exists (render_reason (row_get row "reason")).
    split; [|split].
    + rewrite list_lookup_fmap, lookup_take_lt, list_lookup_fmap, Hrow by done.
      simpl. unfold failure_line.
      rewrite !row_get_restrict; [done|..]; rewrite !elem_of_cons; tauto.
    + intros t Ht. rewrite Ht.
      apply (render_reason_truncates (Text t)).
    + by intros ->.
Qed.


(** C2: when the assembled summary text has more than 300
    whitespace-separated words, the final text is its first 300 words
    joined by single spaces with "..." appended, so it splits into exactly
    300 tokens: the first 299 words and the 300th word carrying the "...";
    a text of at most 300 words is left as it is. *)
Theorem summary_text_capped s :
  let text := join newline (summary_lines s) in
  let words := split text in
  (300 < length words →
     summary_text s = join " " (take 300 words) +:+ "..."
     ∧ ∃ last, words !! 299 = Some last
         ∧ split (summary_text s) = take 299 words ++ [last +:+ "..."]
         ∧ length (split (summary_text s)) = 300)
  ∧ (length words ≤ 300 → summary_text s = text).
Proof.
  intros text words. unfold summary_text, cap_words. fold text. fold words.
  split; intros Hlen.
  - rewrite decide_True by done. split; [done|].
    destruct (lookup_lt_is_Some_2 words 299) as [last Hlast]; [lia|].
    exists last. split; [done|].
    rewrite (take_S_r _ _ _ Hlast).
    rewrite split_join_suffix; [|rewrite <- (take_S_r _ _ _ Hlast)|done].
    + split; [done|]. rewrite length_app, length_take_le by lia. done.
    + apply Forall_take, split_words.
  - by rewrite decide_False by lia.
Qed.

End Aggregator.

(** ** The aggregator on the sample inputs *)

Lemma df_sample_validated : validated df_sample.
Proof.
  intros c. unfold required_cols, df_sample. simpl.
  rewrite !elem_of_cons, !elem_of_nil. tauto.
Qed.

Lemma by_dataset_sum_nonnull_witness :
  ∃ s, aggregate df_sample = Ok s
       ∧ sum_counts (by_dataset s) + null_count (column df_sample "dataset")
           = total_failures s
       ∧ (sum_counts (by_dataset s) = total_failures s
          ↔ ∀ c, c ∈ column df_sample "dataset" → isnull c = false).
Proof.
  apply (by_dataset_sum_nonnull df_sample (Stamp stamp_mar)).
  - apply df_sample_validated.
  - by vm_compute.
Defined.

(** On the sample sheet the third row has no dataset: the counts are x = 2
    and y = 1, which sum to 3, and the total is 4. *)
Lemma by_dataset_sum_counterexample : ¬ counts_sum_to_total df_sample.
Proof.
  intros H.
  assert (∃ s, aggregate df_sample = Ok s
               ∧ sum_counts (by_dataset s) = 3 ∧ total_failures s = 4)
    as (s & Hs & H3 & H4).
  { eexists. split; [vm_compute; reflexivity|]. split; vm_compute; reflexivity. }
  apply H in Hs. lia.
Qed.

Lemma null_datasets_excluded_witness :
  ∃ s, aggregate df_sample = Ok s
       ∧ by_dataset s = [(Text "x", 2); (Text "y", 1)]
       ∧ sum_counts (by_dataset s) = length (dropna (column df_sample "dataset")).
Proof.
  destruct (null_datasets_excluded df_sample (Stamp stamp_mar))
    as (s & Hs & _ & _ & _ & Hsum).
  - apply df_sample_validated.
  - by vm_compute.
  - exists s. split; [done|]. split; [|done].
    vm_compute in Hs. by injection Hs as <-.
Defined.

Lemma most_common_error_spec_witness :
  ∃ s, aggregate df_sample = Ok s
       ∧ most_common_error s = Text "quota exceeded"
       ∧ (most_common_error s = Text "N/A"
          ↔ isnull_all (column df_sample "reason") = true).
Proof.
  destruct (most_common_error_spec (Xlsx df_sample) df_sample (Stamp stamp_mar))
    as (s & Hs & Hna & _).
  - by vm_compute.
  - apply df_sample_validated.
  - by vm_compute.
  - exists s. split; [done|]. split; [|done].
    vm_compute in Hs. by injection Hs as <-.
Defined.

(** With the reasons "timeout" and "quota exceeded" once each, the code
    answers "timeout", which is not more frequent than "quota exceeded". *)
Lemma most_common_tie_counterexample : ¬ most_common_as_claimed df_tie.
Proof.
  intros H.
  assert (∃ s, aggregate df_tie = Ok s
               ∧ most_common_error s = Text "timeout") as (s & Hs & Hmce).
  { eexists. split; vm_compute; reflexivity. }
  apply H in Hs as [_ Hstrict]. rewrite Hmce in Hstrict.
  destruct Hstrict as (_ & _ & Hlt); [by vm_compute|].
  specialize (Hlt (Text "quota exceeded")).
  assert (freq (Text "quota exceeded") (column df_tie "reason") = 1) as Hq
    by (by vm_compute).
  assert (freq (Text "timeout") (column df_tie "reason") = 1) as Ht
    by (by vm_compute).
  rewrite Hq, Ht in Hlt. apply (Nat.lt_irrefl 1), Hlt; [|done|done].
  vm_compute. right. left.
Qed.

Lemma recent_failures_first_five_witness :
  ∃ s, aggregate df_sample = Ok s
       ∧ column (recent_failures s) "date"
           = [Stamp stamp_mar; Stamp stamp_jan; NaT; Stamp stamp_jan]
       ∧ length (rows (recent_failures s)) = min 5 (len df_sample).
Proof.
  destruct (recent_failures_first_five df_sample (Stamp stamp_mar))
    as (s & Hs & _ & Hlen & _).
  - apply df_sample_validated.
  - by vm_compute.
  - exists s. split; [done|]. split; [|done].
    vm_compute in Hs. by injection Hs as <-.
Defined.

Lemma df_long_validated : validated df_long.
Proof.
  intros c. unfold required_cols, df_long. simpl.
  rewrite !elem_of_cons, !elem_of_nil. tauto.
Qed.

Lemma reason_rendered_in_summary_witness :
  ∃ s, aggregate df_long = Ok s
    ∧ length (failure_lines s) = 1
    ∧ failure_lines s !! 0
        = Some "  - Date: 2024-01-05 10:00:00, Dataset: x, Reason: denied denied denied denied denied denied denied denied deni...".
Proof.
  destruct (reason_rendered_in_summary df_long (Stamp stamp_jan))
    as (s & Hs & Hlen & _ & Hline).
  - apply df_long_validated.
  - by vm_compute.
  - exists s. split; [done|]. split; [done|].
    destruct (Hline 0 (sample_row (Stamp stamp_jan) (Text "x") (Text long_reason)))
      as (rendered & -> & Ht & _); [lia|done|].
    destruct (Ht long_reason) as [Hlong _]; [by vm_compute|].
    destruct Hlong as (first & rest & Hsplit & Hfirst & ->); [vm_compute; lia|].
    assert (first = slice_to 60 long_reason) as ->.
    { by rewrite Hsplit, <- Hfirst, slice_to_app. }
    by vm_compute.
Defined.

(** On the sample sheet the second line shows a short reason intact. *)
Example short_reason_line :
  ∃ s, aggregate df_sample = Ok s
    ∧ failure_lines s !! 1
        = Some "  - Date: 2024-01-05 10:00:00, Dataset: y, Reason: syntax error at line 3..."
    ∧ failure_lines s !! 3
        = Some "  - Date: 2024-01-05 10:00:00, Dataset: x, Reason: nan...".
Proof. eexists. split; [by vm_compute|]. by vm_compute. Qed.

Lemma summary_text_capped_witness :
  ∃ s, aggregate df_long = Ok s
       ∧ 300 < length (split (join newline (summary_lines s)))
       ∧ summary_text s
           = join " " (take 300 (split (join newline (summary_lines s)))) +:+ "...".
Proof.
  eexists. split; [vm_compute; reflexivity|].
  split; [vm_compute; lia|].
  apply summary_text_capped. vm_compute; lia.
Defined.

(** * The run *)

Section Run.

Context (w : World).
Implicit Types (st : State) (df : DataFrame) (folder_id : string).

Lemma same_files_refl st : same_files st st.
Proof. by repeat split. Qed.

Lemma same_files_emit e st st' : same_files st st' → same_files st (emit e st').
Proof. done. Qed.

Lemma before_aggregation_refl st : before_aggregation st st.
Proof. exists []. split; [by rewrite app_nil_r | apply not_elem_of_nil]. Qed.

Lemma before_aggregation_emit e st st' :
  e ≠ LogGenerating →
  before_aggregation st st' → before_aggregation st (emit e st').
Proof.
  intros He (evs & Hlog & Hevs). exists (evs ++ [e]). split.
  - simpl. by rewrite Hlog, app_assoc.
  - rewrite elem_of_app, list_elem_of_singleton. by intros [?|?].
Qed.

Lemma before_aggregation_trans st1 st2 st3 :
  before_aggregation st1 st2 → before_aggregation st2 st3 →
  before_aggregation st1 st3.
Proof.
  intros (e1 & H1 & N1) (e2 & H2 & N2). exists (e1 ++ e2). split.
  - by rewrite H2, H1, app_assoc.
  - rewrite elem_of_app. by intros [?|?].
Qed.

(** Closes the side conditions left by a path of prints. *)
Ltac run_done :=
  repeat split; simpl; try done;
  repeat first
    [ apply same_files_refl | apply same_files_emit
    | apply before_aggregation_refl
    | apply before_aggregation_emit; [discriminate|] ].

(** Case analysis on everything a step branches on. *)
Ltac run_cases :=
  repeat first
    [ progress unfold bind, print, external, ret, return_, throw, lift,
                      gets, put_drive, put_chart, put_pdf in *
    | progress simplify_eq/=
    | case_match ].

(** Steps 1 and 2 touch no file; they end normally with the folder
    identifier of the environment, or return status 500. *)
Lemma load_config_inv st o st' :
  load_config w st = (o, st') →
  same_files st st' ∧ before_aggregation st st'
  ∧ match o with
    | Val folder_id => env_get w "DRIVE_FOLDER_ID" = Some folder_id
    | Return r => r.2 = 500
    | Throw _ => True
    end.
Proof.
  unfold load_config. intros H. run_cases; run_done.
Qed.

(** Steps 3 to 5 touch no file; they end normally with the parsed sheet,
    or return status 404. *)
Lemma load_frame_inv folder_id st o st' :
  load_frame w folder_id st = (o, st') →
  same_files st st' ∧ before_aggregation st st'
  ∧ match o with
    | Val _ => True
    | Return r => r.2 = 404
    | Throw _ => True
    end.
Proof.
  unfold load_frame. intros H. run_cases; run_done.
Qed.

(** Step 6 either passes, printing nothing, or returns the error for the
    first required column the sheet lacks. *)
Lemma validate_inv df cols st :
  (validate df cols st = (Val tt, st) ∧ (∀ c, c ∈ cols → c ∈ columns df))
  ∨ ∃ before col after,
      cols = before ++ col :: after
      ∧ (∀ c, c ∈ before → c ∈ columns df) ∧ (col ∉ columns df)
      ∧ validate df cols st =
          (Return ("Error: Required column missing: " +:+ col, 500),
           emit (ErrMissingColumn col) st).
Proof.
  induction cols as [|col cols IH]; simpl.
  - left. split; [done|]. by intros ? ?%elem_of_nil.
  - case_decide as Hcol.
    + destruct IH as [[Hv Hall]|(before & c & after & -> & Hb & Hc & Hv)].
      * left. split; [done|]. intros ? [->|?]%elem_of_cons; auto.
      * right. exists (col :: before), c, after. split; [done|].
        split; [|by split]. intros ? [->|?]%elem_of_cons; auto.
    + right. exists [], col, cols. split; [done|].
      split; [by intros ? ?%elem_of_nil|]. by split.
Qed.

(** A sheet with the required columns passes step 6. *)
Lemma validate_validated df st :
  validated df → validate df required_cols st = (Val tt, st).
Proof.
  intros Hval.
  destruct (validate_inv df required_cols st)
    as [[Hv _]|(before & col & after & Hc & _ & Hcol & _)]; [done|].
  destruct Hcol. apply Hval. rewrite Hc, elem_of_app. right. by left.
Qed.

(** Step 7 leaves the folder alone and never returns early.  When it
    ends normally the chart was rendered, and the PDF written holds the
    summary text and that chart. *)
Lemma make_report_inv df st o st' :
  make_report w df st = (o, st') →
  drive st' = drive st
  ∧ match o with
    | Val _ =>
        ∃ s, aggregate df = Ok s ∧ fault w OpPlot = None
             ∧ chart_file st' = Some (bar_chart (by_dataset s))
             ∧ pdf_file st' =
                 Some {| pdf_body := summary_text s;
                         pdf_image := Some (bar_chart (by_dataset s)) |}
    | Return _ => False
    | Throw _ => pdf_file st' = pdf_file st
    end.
Proof.
  unfold make_report, plot_bar. intros H. run_cases; try done.
  split; [done|]. exists a. by rewrite H2.
Qed.

(** Step 7 ends normally only when there is a bar to draw. *)
Lemma make_report_Val_bars df st st' :
  make_report w df st = (Val tt, st') →
  ∃ s, aggregate df = Ok s ∧ by_dataset s ≠ [].
Proof.
  unfold make_report, plot_bar. intros H. run_cases.
  exists a. split; [done|]. by rewrite H2.
Qed.

(** A renderer that raises ends step 7 right after the aggregation. *)
Lemma make_report_plot_fault df s msg st :
  aggregate df = Ok s → fault w OpPlot = Some msg →
  make_report w df st = (Throw (ExternalError msg), emit LogGenerating st).
Proof.
  intros Hagg Hfault.
  unfold make_report, bind, print, lift, external, ret, throw.
  by rewrite Hagg, Hfault.
Qed.

(** With no bar to draw the plot raises, and step 7 ends there too. *)
Lemma make_report_no_bars df s st :
  aggregate df = Ok s → fault w OpPlot = None → by_dataset s = [] →
  make_report w df st =
    (Throw (IndexError "index 0 is out of bounds for axis 0 with size 0"),
     emit LogGenerating st).
Proof.
  intros Hagg Hfault Hbars.
  unfold make_report, bind, print, lift, external, ret, throw, plot_bar.
  by rewrite Hagg, Hfault, Hbars.
Qed.

(** Step 8 never returns early and leaves the temporary PDF alone.  When
    it ends normally the folder holds the PDF: in the first report file
    the list call returned, or in a new file when it returned none.  When
    it raises the folder is as it was. *)
Lemma upload_report_inv folder_id st o st' :
  upload_report w folder_id st = (o, st') →
  pdf_file st' = pdf_file st
  ∧ match o with
    | Val _ =>
        ∃ pdf, pdf_file st = Some pdf
          ∧ drive st' =
              match files_list folder_id REPORT_NAME (drive st) with
              | f :: _ => files_update (file_id f) (PdfBlob pdf) (drive st)
              | [] =>
                  (files_create folder_id REPORT_NAME (PdfBlob pdf)
                     (drive st)).2
              end
    | Return _ => False
    | Throw _ => drive st' = drive st
    end.
Proof.
  unfold upload_report. intros H. run_cases; try done.
  - split; [done|]. by exists p.
  - split; [done|]. by exists p.
Qed.

Lemma files_update_ids id media (d : list DriveFile) :
  file_id <$> files_update id media d = file_id <$> d.
Proof.
  unfold files_update. rewrite <- list_fmap_compose.
  apply list_fmap_ext. intros i f _. simpl. by case_decide.
Qed.

Lemma files_update_content id media (d : list DriveFile) g :
  g ∈ files_update id media d → file_id g = id → file_content g = media.
Proof.
  unfold files_update. intros (f & -> & _)%list_elem_of_fmap.
  by case_decide.
Qed.


(** C7: when the parsed sheet lacks one of the columns dataset, reason
    and date, the run returns at once the error naming the first missing
    column, with status 500: after the sheet was parsed only the error
    line is printed, so step 7 (aggregation) is never started, the folder
    and the temporary files are as they were, and no PDF is uploaded. *)
Theorem missing_column_fails st folder_id st0 df st1 :
  load_config w st = (Val folder_id, st0) →
  load_frame w folder_id st0 = (Val df, st1) →
  (∃ c, c ∈ required_cols ∧ c ∉ columns df) →
  ∃ col, col ∈ required_cols ∧ (col ∉ columns df)
    ∧ generate_report w st =
        (("Error: Required column missing: " +:+ col, 500),
         emit (ErrMissingColumn col) st1)
    ∧ same_files st (emit (ErrMissingColumn col) st1)
    ∧ before_aggregation st (emit (ErrMissingColumn col) st1).
Proof.
  intros Hcfg Hframe (c & Hc & Hmiss).
  destruct (validate_inv df required_cols st1)
    as [[_ Hall]|(before & col & after & Hcols & _ & Hcol & Hv)].
  { by apply Hall in Hc. }
  exists col. split; [|split; [done|]].
  { rewrite Hcols, elem_of_app. right. by left. }
  split.
  - unfold generate_report, body, bind. by rewrite Hcfg, Hframe, Hv.
  - apply load_config_inv in Hcfg as ((D0 & C0 & P0) & B0 & _).
    apply load_frame_inv in Hframe as ((D1 & C1 & P1) & B1 & _).
    split.
    + apply same_files_emit. repeat split; congruence.
    + apply before_aggregation_emit; [done|].
      by eapply before_aggregation_trans.
Qed.

(** C8 (fails as stated, whenever the renderer raises).  Amended: if the
    chart-render step raises, because the rendering back end fails or
    because the bar plot is given an empty [by_dataset], report generation
    does not crash but produces nothing: the run ends in the catch-all
    response "Error generating PDF report: <message>" with status 500,
    printing only the exception after the line that opens step 7; the
    folder and the temporary files are as they were, so nothing is composed
    or published.  When the renderer and the composer do not raise, the
    chart file exists and the composed PDF embeds it. *)
Theorem render_failure_is_fatal st folder_id st0 df st1 s :
  load_config w st = (Val folder_id, st0) →
  load_frame w folder_id st0 = (Val df, st1) →
  (∀ c, c ∈ required_cols → c ∈ columns df) →
  aggregate df = Ok s →
  (∀ msg, fault w OpPlot = Some msg →
     generate_report w st =
       (("Error generating PDF report: " +:+ msg, 500),
        emit (ErrException msg) (emit LogGenerating st1))
     ∧ same_files st (emit (ErrException msg) (emit LogGenerating st1)))
  ∧ (fault w OpPlot = None → by_dataset s = [] →
     let msg := "index 0 is out of bounds for axis 0 with size 0" in
     generate_report w st =
       (("Error generating PDF report: " +:+ msg, 500),
        emit (ErrException msg) (emit LogGenerating st1))
     ∧ same_files st (emit (ErrException msg) (emit LogGenerating st1)))
  ∧ (fault w OpPlot = None → by_dataset s ≠ [] → fault w OpPdf = None →
     ∃ st2, make_report w df st1 = (Val tt, st2)
            ∧ chart_file st2 = Some (bar_chart (by_dataset s))
            ∧ pdf_file st2 =
                Some {| pdf_body := summary_text s;
                        pdf_image := Some (bar_chart (by_dataset s)) |}).
Proof.
  intros Hcfg Hframe Hcols Hagg.
  assert (validate df required_cols st1 = (Val tt, st1)) as Hv.
  { destruct (validate_inv df required_cols st1)
      as [[Hv _]|(before & col & after & Hc & _ & Hcol & _)]; [done|].
    destruct Hcol. apply Hcols. rewrite Hc, elem_of_app. right. by left. }
  assert (∀ msg, same_files st
            (emit (ErrException msg) (emit LogGenerating st1))) as Hsame.
  { intros msg.
    apply load_config_inv in Hcfg as ((D0 & C0 & P0) & _).
    apply load_frame_inv in Hframe as ((D1 & C1 & P1) & _).
    do 2 apply same_files_emit. repeat split; congruence. }
  split; [|split].
  - intros msg Hfault. split; [|done].
    unfold generate_report, body, bind. rewrite Hcfg, Hframe, Hv.
    by rewrite (make_report_plot_fault df s msg).
  - intros Hplot Hbars msg. split; [|done].
    unfold generate_report, body, bind. rewrite Hcfg, Hframe, Hv.
    by rewrite (make_report_no_bars df s).
  - intros Hplot Hbars Hpdf.
    unfold make_report, bind, print, lift, external, ret, gets, put_chart,
      put_pdf, plot_bar.
    rewrite Hagg, Hplot, Hpdf. destruct (by_dataset s); [done|].
    simpl. by eexists.
Qed.

(** C9: after a successful run (status 200), if the folder held a
    non-trashed file named failed_logs_report.pdf, the first one the list
    call returns now holds the new PDF and the folder has the same file
    identifiers as before (nothing was added); if it held none, exactly
    one file was added, under an identifier no file had, with that name,
    in that folder, holding the new PDF. *)
Theorem report_updated_in_place st text st' :
  generate_report w st = ((text, 200), st') →
  ∃ folder_id pdf,
    env_get w "DRIVE_FOLDER_ID" = Some folder_id
    ∧ pdf_file st' = Some pdf
    ∧ match files_list folder_id REPORT_NAME (drive st) with
      | f :: _ =>
          drive st' = files_update (file_id f) (PdfBlob pdf) (drive st)
          ∧ file_id <$> drive st' = file_id <$> drive st
          ∧ ∀ g, g ∈ drive st' → file_id g = file_id f →
              file_content g = PdfBlob pdf
      | [] =>
          ∃ id, (id ∉ file_id <$> drive st)
            ∧ drive st' =
                drive st ++ [mkDriveFile id REPORT_NAME [folder_id] false
                               (PdfBlob pdf)]
      end.
Proof.
  unfold generate_report, body, bind. intros H.
  destruct (load_config w st) as [[folder_id|r|e] st0] eqn:Hcfg;
    apply load_config_inv in Hcfg as ((D0 & _ & _) & _ & Hcfg);
    [|by simplify_eq/=..].
  destruct (load_frame w folder_id st0) as [[df|r|e] st1] eqn:Hframe;
    apply load_frame_inv in Hframe as ((D1 & _ & _) & _ & Hframe);
    [|by simplify_eq/=..].
  destruct (validate_inv df required_cols st1)
    as [[Hv _]|(? & col & ? & _ & _ & _ & Hv)];
    rewrite Hv in H; [|by simplify_eq/=].
  destruct (make_report w df st1) as [[[]|r|e] st2] eqn:Hmake;
    apply make_report_inv in Hmake as (D2 & Hmake);
    [|done|by simplify_eq/=].
  destruct Hmake as (s & _ & _ & _ & Hpdf).
  destruct (upload_report w folder_id st2) as [[[]|r|e] st3] eqn:Hup;
    apply upload_report_inv in Hup as (P3 & Hup);
    [|done|by simplify_eq/=].
  destruct Hup as (pdf & Hpdf' & D3). injection H as _ <-.
  exists folder_id, pdf. split; [done|]. split; [congruence|].
  rewrite D2, D1, D0 in D3.
  destruct (files_list folder_id REPORT_NAME (drive st)) as [|f fs].
  - eexists. split; [apply infinite_is_fresh|]. by rewrite D3.
  - rewrite D3. split; [done|]. split; [apply files_update_ids|].
    intros g. apply files_update_content.
Qed.

End Run.

(** ** The run on the sample folders *)



Lemma missing_column_fails_witness :
  ∃ col st1,
    col ∈ required_cols ∧ (col ∉ columns df_nodate)
    ∧ generate_report w_ok st_nodate =
        (("Error: Required column missing: " +:+ col, 500),
         emit (ErrMissingColumn col) st1)
    ∧ same_files st_nodate (emit (ErrMissingColumn col) st1)
    ∧ before_aggregation st_nodate (emit (ErrMissingColumn col) st1).
Proof.
  pose (st0 := (load_config w_ok st_nodate).2).
  pose (st1 := (load_frame w_ok "folder-1" st0).2).
  destruct (missing_column_fails w_ok st_nodate "folder-1" st0 df_nodate st1)
    as (col & H).
  - by vm_compute.
  - by vm_compute.
  - exists "date". unfold required_cols, df_nodate. simpl.
    rewrite !elem_of_cons, !elem_of_nil. split; [tauto|]. by intros [|[|]].
  - by exists col, st1.
Defined.

(** The same run, evaluated: the response names the date column, and the
    folder still holds the sheet only. *)
Example missing_date_run :
  (generate_report w_ok st_nodate).1
    = ("Error: Required column missing: date", 500)
  ∧ drive (generate_report w_ok st_nodate).2 = drive st_nodate
  ∧ pdf_file (generate_report w_ok st_nodate).2 = None.
Proof. by vm_compute. Qed.

Lemma render_failure_is_fatal_witness :
  (generate_report w_noplot st_fresh).1
    = ("Error generating PDF report: no display", 500)
  ∧ drive (generate_report w_noplot st_fresh).2 = drive st_fresh
  ∧ pdf_file (generate_report w_noplot st_fresh).2 = None.
Proof.
  pose (st0 := (load_config w_noplot st_fresh).2).
  pose (st1 := (load_frame w_noplot "folder-1" st0).2).
  destruct (aggregate df_sample) as [s|] eqn:Hagg; [|by vm_compute in Hagg].
  destruct (render_failure_is_fatal w_noplot st_fresh "folder-1" st0 df_sample
              st1 s) as [Hfatal _].
  - by vm_compute.
  - by vm_compute.
  - unfold required_cols, df_sample. simpl. intros c.
    rewrite !elem_of_cons, !elem_of_nil. tauto.
  - done.
  - destruct (Hfatal "no display") as [Hrun (Hd & _ & Hp)]; [done|].
    rewrite Hrun. split; [done|]. by split.
Defined.

(** With a renderer that raises, the run on a folder that holds the sheet
    ends with status 500 and the folder holds no report. *)
Lemma render_failure_counterexample :
  ¬ publishes_without_chart w_noplot st_fresh.
Proof.
  intros H. destruct H as [Hstatus _]; [by eexists|].
  vm_compute in Hstatus. discriminate Hstatus.
Qed.

Lemma report_updated_in_place_witness :
  ∃ pdf,
    pdf_file (generate_report w_ok st_prior).2 = Some pdf
    ∧ drive (generate_report w_ok st_prior).2
        = files_update "rep-1" (PdfBlob pdf) (drive st_prior)
    ∧ file_id <$> drive (generate_report w_ok st_prior).2
        = file_id <$> drive st_prior.
Proof.
  destruct (report_updated_in_place w_ok st_prior
              "PDF report generated and uploaded to Drive."
              (generate_report w_ok st_prior).2)
    as (folder_id & pdf & Henv & Hpdf & Hm); [by vm_compute|].
  injection Henv as <-.
  change (files_list "folder-1" REPORT_NAME (drive st_prior))
    with [old_report] in Hm.
  destruct Hm as (Hd & Hids & _). by exists pdf.
Defined.

(** On a folder without a report the successful run adds one file. *)
Example report_created_when_absent :
  (generate_report w_ok st_fresh).1.2 = 200
  ∧ (λ f, (file_id f, file_name f)) <$> drive (generate_report w_ok st_fresh).2
      = [("in-1", INPUT_NAME); ("0", REPORT_NAME)].
Proof. by vm_compute. Qed.

(** * Further properties of the aggregation *)

Section Ordering.

Implicit Types (vc : counts) (df : DataFrame).







(** Order of the timestamp keys. *)
Lemma lex_ltb_irrefl (a : list nat) : lex_ltb a a = false.
Proof. induction a as [|x a IH]; simpl; [done|]. by rewrite !decide_False by lia. Qed.

Lemma lex_le_trans (a b c : list nat) :
  lex_ltb b a = false → lex_ltb c b = false → lex_ltb c a = false.
Proof.
  revert b c. induction a as [|x a IH]; intros [|y b] [|z c]; simpl;
    try done.
  repeat case_decide; try done; try lia. apply IH.
Qed.

Lemma lex_le_total (a b : list nat) :
  lex_ltb a b = true → lex_ltb b a = false.
Proof.
  revert b. induction a as [|x a IH]; intros [|y b]; simpl; try done.
  repeat case_decide; try done; try lia. apply IH.
Qed.

Lemma Timestamp_max_ub a b :
  Timestamp_le a (Timestamp_max a b) ∧ Timestamp_le b (Timestamp_max a b)
  ∧ (Timestamp_max a b = a ∨ Timestamp_max a b = b).
Proof.
  unfold Timestamp_le, Timestamp_max.
  destruct (lex_ltb (Timestamp_key a) (Timestamp_key b)) eqn:Hab.
  - split; [by apply lex_le_total|]. split; [apply lex_ltb_irrefl | by right].
  - split; [apply lex_ltb_irrefl|]. split; [done | by left].
Qed.

(** The running maximum over timestamps is one of them and bounds them. *)
Lemma max_from_stamps_spec t (l : Series) :
  Forall (λ c, ∃ u, c = Stamp u) l →
  ∃ m, max_from (Stamp t) l = Ok (Stamp m)
       ∧ Stamp m ∈ Stamp t :: l
       ∧ ∀ u, Stamp u ∈ Stamp t :: l → Timestamp_le u m.
Proof.
  revert t. induction l as [|c l IH]; intros t Hl; simpl.
  - exists t. split; [done|]. split; [by left|].
    intros u [[= ->]|?%elem_of_nil]%elem_of_cons; [|done].
    apply lex_ltb_irrefl.
  - apply Forall_cons in Hl as [[u ->] Hl]. simpl.
    destruct (IH (Timestamp_max t u) Hl) as (m & -> & Hin & Hub).
    destruct (Timestamp_max_ub t u) as (Ht & Hu & Hor).
    exists m. split; [done|]. split.
    + apply elem_of_cons in Hin as [[= ->]|Hin].
      * destruct Hor as [->| ->]; [by left | right; by left].
      * right. by right.
    + assert (Timestamp_le (Timestamp_max t u) m) as Hm by (apply Hub; by left).
      intros v [[= ->]|[[= ->]|Hv]%elem_of_cons]%elem_of_cons.
      * by eapply lex_le_trans.
      * by eapply lex_le_trans.
      * apply Hub. by right.
Qed.

(** The maximum of an all-blank float column is NaN. *)
Lemma series_max_blank (dates : Series) :
  (∀ c, c ∈ dates → c = NaN) → series_max dates = Ok NaN.
Proof.
  intros Hblank. unfold series_max. case_decide; [done|].
  assert (isnull_all dates = true) as ->.
  { apply forallb_forall. intros c Hc%list_elem_of_In.
    by rewrite (Hblank c Hc). }
  destruct dates as [|c l]; [done|].
  rewrite (Hblank c) by left. done.
Qed.

(** On a datetime column [most_recent] is the latest timestamp, and null
    when every date is blank. *)
Lemma most_recent_datetime df :
  validated df →
  forallb is_datetime (column df "date") = true →
  ∃ s, aggregate df = Ok s
    ∧ (∀ t, Stamp t ∈ column df "date" →
         ∃ m, most_recent s = Stamp m
              ∧ Stamp m ∈ column df "date"
              ∧ ∀ u, Stamp u ∈ column df "date" → Timestamp_le u m)
    ∧ ((∀ c, c ∈ column df "date" → isnull c = true) →
         isnull (most_recent s) = true).
Proof.
  intros Hval Hdt.
  destruct (series_max_datetime _ Hdt) as [m0 Hmax].
  destruct (aggregate_total df m0 Hval Hmax) as [s Hs].
  exists s. split; [done|].
  apply aggregate_Ok in Hs as (_ & _ & _ & Hrec & _).
  rewrite Hmax in Hrec. injection Hrec as <-.
  set (dates := column df "date") in *.
  assert (Forall (λ c, ∃ u, c = Stamp u) (dropna dates)) as Hst.
  { apply Forall_forall. intros c [Hc Hin]%list_elem_of_filter.
    rewrite forallb_forall in Hdt. apply list_elem_of_In, Hdt in Hin.
    destruct c; try done. by eexists. }
  assert (∀ u, Stamp u ∈ dates ↔ Stamp u ∈ dropna dates) as Hmem.
  { intros u. unfold dropna. rewrite list_elem_of_filter. simpl. tauto. }
  unfold series_max in Hmax. rewrite Hdt in Hmax. split.
  - intros t Ht. case_decide as Hnil; [rewrite Hnil in Ht; by apply elem_of_nil in Ht|].
    destruct (dropna dates) as [|c l] eqn:Hdrop.
    { apply Hmem in Ht. by apply elem_of_nil in Ht. }
    apply Forall_cons in Hst as [[t0 ->] Hl]. simpl in Hmax.
    destruct (max_from_stamps_spec t0 l Hl) as (m & Hm & Hin & Hub).
    rewrite Hm in Hmax. injection Hmax as <-.
    exists m. split; [done|]. split; [by apply Hmem|].
    intros u Hu. by apply Hub, Hmem.
  - intros Hnull. case_decide; [by injection Hmax as <-|].
    destruct (dropna dates) as [|c l] eqn:Hdrop; [by injection Hmax as <-|].
    assert (c ∈ dropna dates) as Hc by (rewrite Hdrop; by left).
    apply list_elem_of_filter in Hc as [Hc Hin]. apply Hnull in Hin. congruence.
Qed.

(** X2: on every validated row set read from the sheet whose date cells
    are timestamps or blank, the aggregation completes and [most_recent] is
    the latest date: when some row has a date it is the timestamp of one of
    the rows and no row has a later one (blank dates are skipped); when
    every date is blank it is the null value NaN. *)
Theorem most_recent_is_latest b df :
  read_excel b = Ok df → validated df →
  (∀ t, Text t ∉ column df "date") →
  ∃ s, aggregate df = Ok s
    ∧ (∀ t, Stamp t ∈ column df "date" →
         ∃ m, most_recent s = Stamp m
              ∧ Stamp m ∈ column df "date"
              ∧ ∀ u, Stamp u ∈ column df "date" → Timestamp_le u m)
    ∧ ((∀ c, c ∈ column df "date" → isnull c = true) →
         most_recent s = NaN).
Proof.
  intros Hread Hval Htext.
  pose proof Hread as (sheet & _ & Hdf)%read_excel_Ok.
  assert (column df "date" = parse_column (column sheet "date")) as Hcol.
  { rewrite Hdf. apply column_parse_sheet.
    apply validated_columns in Hval as (_ & _ & Hdate). by rewrite Hdf in Hdate. }
  rewrite Hcol in Htext.
  destruct (parse_column_no_text _ Htext) as [[Hdt [t0 Ht0]]|Hblank];
    rewrite <- Hcol in *.
  - destruct (most_recent_datetime df Hval Hdt) as (s & Hs & Hlatest & _).
    exists s. split; [done|]. split; [done|].
    intros Hnull. by apply Hnull in Ht0.
  - pose proof (series_max_blank _ Hblank) as Hmax.
    destruct (aggregate_total df NaN Hval Hmax) as [s Hs].
    exists s. split; [done|].
    apply aggregate_Ok in Hs as (_ & _ & _ & Hrec & _).
    rewrite Hmax in Hrec. injection Hrec as <-.
    split; [|done]. intros t Ht. by apply Hblank in Ht.
Qed.

(** X3: the summary has nine fixed lines, one line per dataset up to five
    and one line per row up to five, so at most nineteen lines. *)
Theorem summary_lines_count df m :
  validated df → series_max (column df "date") = Ok m →
  ∃ s, aggregate df = Ok s
    ∧ length (summary_lines s)
        = 9 + min 5 (length (by_dataset s)) + min 5 (len df)
    ∧ length (summary_lines s) ≤ 19.
Proof.
  intros Hval Hmax. destruct (aggregate_total df m Hval Hmax) as [s Hs].
  exists s. split; [done|].
  apply aggregate_Ok in Hs as (_ & _ & _ & _ & _ & Hrows).
  unfold summary_lines, dataset_lines, failure_lines, counts_head.
  rewrite !length_app, !length_fmap, Hrows, !length_take, length_fmap.
  unfold len. cbn [length]. lia.
Qed.

End Ordering.

(** * Further properties of the run *)

Section Contract.

Context (w : World).
Implicit Types (st : State) (df : DataFrame) (folder_id : string)
  (r : response).

(** Case analysis on every branch of a step. *)
Ltac exec_cases :=
  repeat first
    [ progress unfold bind, print, external, ret, return_, throw, lift,
                      gets, put_drive, put_chart, put_pdf in *
    | progress simplify_eq/=
    | case_match ].

(** Every run follows one of the eight paths. *)
Lemma run_paths st r st' :
  generate_report w st = (r, st') → run_path w st r st'.
Proof.
  unfold generate_report, body, bind. intros H.
  destruct (load_config w st) as [[folder_id|r0|e] st0] eqn:Hcfg;
    [|injection H as <- <-; by constructor
     |injection H as <- <-; by constructor].
  destruct (load_frame w folder_id st0) as [[df|r0|e] st1] eqn:Hframe;
    [|injection H as <- <-; by econstructor
     |injection H as <- <-; by econstructor].
  destruct (validate_inv df required_cols st1)
    as [[Hv Hval]|(? & col & ? & _ & _ & _ & Hv)]; rewrite Hv in H;
    [|injection H as <- <-; by econstructor].
  destruct (make_report w df st1) as [[[]|r0|e] st2] eqn:Hmake;
    [|by apply make_report_inv in Hmake as [_ ?]
     |injection H as <- <-; by econstructor].
  destruct (upload_report w folder_id st2) as [[[]|r0|e] st3] eqn:Hup;
    [|by apply upload_report_inv in Hup as [_ ?]
     |injection H as <- <-; by econstructor].
  injection H as <- <-. by econstructor.
Qed.

(** How steps 1 and 2 return early. *)
Lemma load_config_Return st r st' :
  load_config w st = (Return r, st') →
  ((env_get w "GOOGLE_SERVICE_ACCOUNT_JSON" = None
    ∨ env_get w "DRIVE_FOLDER_ID" = None)
   ∧ r = env_missing_response
   ∧ st' = emit ErrEnvMissing (emit LogStart st))
  ∨ ∃ json folder_id msg,
      env_get w "GOOGLE_SERVICE_ACCOUNT_JSON" = Some json
      ∧ env_get w "DRIVE_FOLDER_ID" = Some folder_id
      ∧ json_error w json = Some msg
      ∧ r = json_response msg
      ∧ st' = emit (ErrJson msg) (emit LogStart st).
Proof.
  unfold load_config. intros H. exec_cases; eauto 10.
Qed.

(** How steps 3 to 5 return early, and what they hand on. *)
Lemma load_frame_Return folder_id st r st' :
  load_frame w folder_id st = (Return r, st') →
  files_list folder_id INPUT_NAME (drive st) = []
  ∧ r = not_found_response
  ∧ st' = emit ErrNoInput (emit (LogFilesFound []) (emit LogSearching st)).
Proof.
  unfold load_frame. intros H. exec_cases. done.
Qed.

Lemma load_frame_Val folder_id st df st' :
  load_frame w folder_id st = (Val df, st') →
  ∃ f fs, files_list folder_id INPUT_NAME (drive st) = f :: fs
          ∧ rbind (get_media (file_id f) (drive st)) read_excel = Ok df.
Proof.
  unfold load_frame. intros H. exec_cases.
  eexists _, _. split; [eassumption|].
  match goal with Hm : get_media _ _ = Ok _ |- _ => by rewrite Hm end.
Qed.

(** X4: the response contract.  Whatever the environment, the folder and
    the external calls do, a run answers with one of six responses: the
    success text with status 200, the not-found text with 404, or with
    status 500 the missing-variables text, the credentials-parse text with
    the parser's message, the missing-column text with one of the three
    required columns, or the catch-all text with the exception's message. *)
Theorem response_contract st r st' :
  generate_report w st = (r, st') →
  r = success_response
  ∨ r = not_found_response
  ∨ r = env_missing_response
  ∨ (∃ msg, r = json_response msg)
  ∨ (∃ col, col ∈ required_cols ∧ r = column_response col)
  ∨ (∃ e, r = caught e).
Proof.
  intros Hrun%run_paths.
  destruct Hrun as [r st' Hcfg| | ? ? r st' _ Hframe| |
                    ? ? df st1 r st' _ _ Hv| | |]; eauto 10.
  - apply load_config_Return in Hcfg
      as [(_ & -> & _)|(? & ? & msg & _ & _ & _ & -> & _)]; eauto 10.
  - apply load_frame_Return in Hframe as (_ & -> & _). eauto.
  - destruct (validate_inv df required_cols st1)
      as [[Hv' _]|(before & col & after & Hcols & _ & _ & Hv')];
      rewrite Hv' in Hv; [done|]. injection Hv as <- <-.
    do 4 right. left. exists col. split; [|done].
    rewrite Hcols, elem_of_app. right. by left.
Qed.

(** The texts of the responses tell the failures apart. *)
Lemma env_missing_not_json msg : json_response msg ≠ env_missing_response.
Proof. intros H. vm_compute in H. discriminate H. Qed.

Lemma env_missing_not_column col : column_response col ≠ env_missing_response.
Proof. intros H. vm_compute in H. discriminate H. Qed.

Lemma env_missing_not_caught e : caught e ≠ env_missing_response.
Proof. intros H. vm_compute in H. discriminate H. Qed.

Lemma json_not_column msg col : column_response col ≠ json_response msg.
Proof. intros H. vm_compute in H. discriminate H. Qed.

Lemma json_not_caught msg e : caught e ≠ json_response msg.
Proof. intros H. vm_compute in H. discriminate H. Qed.

(** X5: the run answers with the missing-variables text exactly when one of
    the two environment variables is unset or empty.  It has then printed
    its first line and the error and done nothing else: no credentials are
    parsed and no external call is made, whatever those would do. *)
Theorem env_missing_iff st :
  let missing := env_get w "GOOGLE_SERVICE_ACCOUNT_JSON" = None
                 ∨ env_get w "DRIVE_FOLDER_ID" = None in
  ((generate_report w st).1 = env_missing_response ↔ missing)
  ∧ (missing →
     (generate_report w st).2 = emit ErrEnvMissing (emit LogStart st)).
Proof.
  intros missing.
  assert (missing →
          generate_report w st
          = (env_missing_response, emit ErrEnvMissing (emit LogStart st)))
    as Hfwd.
  { unfold generate_report, body, load_config, bind, print, return_.
    intros [H|H]; rewrite H; [done|].
    by destruct (env_get w "GOOGLE_SERVICE_ACCOUNT_JSON"). }
  split; [split|].
  - destruct (generate_report w st) as [r st'] eqn:Hrun. simpl. intros ->.
    apply run_paths in Hrun.
    inversion Hrun as [r st1 Hcfg| | ? ? r st1 _ Hframe| |
                       ? ? df st1 r st2 _ _ Hv| | |]; subst;
      try match goal with
          | H : caught _ = env_missing_response |- _ =>
              by apply env_missing_not_caught in H
          end.
    + apply load_config_Return in Hcfg
        as [(? & _)|(? & ? & msg & _ & _ & _ & Hr & _)]; [done|].
      by apply symmetry, env_missing_not_json in Hr.
    + by apply load_frame_Return in Hframe as (_ & ? & _).
    + destruct (validate_inv df required_cols st1)
        as [[Hv' _]|(before & col & after & _ & _ & _ & Hv')];
        rewrite Hv' in Hv; [done|].
      destruct (env_missing_not_column col). unfold column_response.
      congruence.
  - intros H. by rewrite Hfwd.
  - intros H. by rewrite Hfwd.
Qed.

Lemma success_not_json msg : json_response msg ≠ success_response.
Proof. intros H. apply (f_equal snd) in H. discriminate H. Qed.

Lemma json_response_inj msg1 msg2 :
  json_response msg1 = json_response msg2 → msg1 = msg2.
Proof. intros [= H]. by apply (inj _) in H. Qed.

(** X6: with both variables set, the run answers with the
    credentials-parse text and the parser's message exactly when
    [json.loads] rejects the credentials; this early return is the inner
    handler's, not the catch-all's, and nothing is called after it. *)
Theorem json_error_iff st json folder_id :
  env_get w "GOOGLE_SERVICE_ACCOUNT_JSON" = Some json →
  env_get w "DRIVE_FOLDER_ID" = Some folder_id →
  ∀ msg,
    ((generate_report w st).1 = json_response msg
     ↔ json_error w json = Some msg)
    ∧ (json_error w json = Some msg →
       (generate_report w st).2 = emit (ErrJson msg) (emit LogStart st)).
Proof.
  intros Hjson Hfolder msg.
  assert (json_error w json = Some msg →
          generate_report w st
          = (json_response msg, emit (ErrJson msg) (emit LogStart st)))
    as Hfwd.
  { unfold generate_report, body, load_config, bind, print, return_.
    rewrite Hjson, Hfolder. by intros ->. }
  split; [split|].
  - destruct (generate_report w st) as [r st'] eqn:Hrun. simpl. intros ->.
    apply run_paths in Hrun.
    inversion Hrun as [r st1 Hcfg| | ? ? r st1 _ Hframe| |
                       ? ? df st1 r st2 _ _ Hv| | |]; subst;
      try match goal with
          | H : caught _ = json_response _ |- _ =>
              by apply json_not_caught in H
          | H : success_response = json_response _ |- _ =>
              by apply symmetry, success_not_json in H
          end.
    + apply load_config_Return in Hcfg
        as [([?|?] & _)|(? & ? & msg' & ? & _ & ? & Hr & _)];
        [congruence..|].
      apply json_response_inj in Hr. congruence.
    + apply load_frame_Return in Hframe as (_ & Hr & _).
      apply (f_equal snd) in Hr. discriminate Hr.
    + destruct (validate_inv df required_cols st1)
        as [[Hv' _]|(before & col & after & _ & _ & _ & Hv')];
        rewrite Hv' in Hv; [done|].
      destruct (json_not_column msg col). unfold column_response.
      congruence.
  - intros H. by rewrite Hfwd.
  - intros H. by rewrite Hfwd.
Qed.

(** X7: once the configuration is loaded and the list call works, the run
    answers 404 exactly when the folder holds no live file named
    failed_logs.xlsx (a file in the bin or in another folder does not
    count); the answer is then the not-found text and the folder is as it
    was. *)
Theorem not_found_iff st folder_id st0 :
  load_config w st = (Val folder_id, st0) →
  fault w OpListInput = None →
  ((generate_report w st).1.2 = 404
   ↔ files_list folder_id INPUT_NAME (drive st) = [])
  ∧ (files_list folder_id INPUT_NAME (drive st) = [] →
     (generate_report w st).1 = not_found_response
     ∧ drive (generate_report w st).2 = drive st).
Proof.
  intros Hcfg Hfault.
  pose proof (load_config_inv w _ _ _ Hcfg) as ((D0 & _) & _).
  assert (files_list folder_id INPUT_NAME (drive st) = [] →
          (generate_report w st).1 = not_found_response
          ∧ drive (generate_report w st).2 = drive st) as Hfwd.
  { intros Hnone. unfold generate_report, body, bind. rewrite Hcfg.
    unfold load_frame, bind, print, external, gets, return_.
    rewrite Hfault. simpl. rewrite D0, Hnone. by simpl. }
  split; [split|done].
  - destruct (generate_report w st) as [r st'] eqn:Hrun. simpl. intros H404.
    apply run_paths in Hrun.
    inversion Hrun as [r1 st1 Hcfg'| |f1 s1 r1 st1 Hcfg' Hframe| |
                       ? ? df st1 r1 st2 _ _ Hv| | |]; subst;
      try (simpl in H404; discriminate H404).
    + congruence.
    + apply load_frame_Return in Hframe as (Hnone & _).
      rewrite Hcfg in Hcfg'. injection Hcfg' as <- <-. by rewrite <- D0.
    + destruct (validate_inv df required_cols st1)
        as [[Hv' _]|(before & col & after & _ & _ & _ & Hv')];
        rewrite Hv' in Hv; [done|]. injection Hv as <- _.
      simpl in H404. discriminate H404.
  - intros Hnone. destruct (Hfwd Hnone) as [-> _]. done.
Qed.

(** The folder after a run: as it was, or with the report updated or added. *)
Lemma run_drive st r st' :
  generate_report w st = (r, st') →
  (r.2 ≠ 200 ∧ drive st' = drive st)
  ∨ (r = success_response
     ∧ ∃ folder_id pdf,
         env_get w "DRIVE_FOLDER_ID" = Some folder_id
         ∧ pdf_file st' = Some pdf
         ∧ drive st' =
             match files_list folder_id REPORT_NAME (drive st) with
             | f :: _ => files_update (file_id f) (PdfBlob pdf) (drive st)
             | [] => (files_create folder_id REPORT_NAME (PdfBlob pdf)
                        (drive st)).2
             end).
Proof.
  intros Hrun%run_paths.
  destruct Hrun as [r st' Hcfg|e st0 Hcfg|f0 st0 r st' Hcfg Hframe
                   |f0 st0 e st1 Hcfg Hframe
                   |f0 st0 df st1 r st' Hcfg Hframe Hv
                   |f0 st0 df st1 e st2 Hcfg Hframe _ Hmake
                   |f0 st0 df st1 st2 e st3 Hcfg Hframe _ Hmake Hup
                   |f0 st0 df st1 st2 st' Hcfg Hframe _ Hmake Hup].
  - apply load_config_inv in Hcfg as ((D0 & _) & _ & Hr). left.
    split; [|done]. simpl in Hr. rewrite Hr. done.
  - apply load_config_inv in Hcfg as ((D0 & _) & _). by left.
  - apply load_config_inv in Hcfg as ((D0 & _) & _).
    apply load_frame_inv in Hframe as ((D1 & _) & _ & Hr). left.
    split; [simpl in Hr; rewrite Hr; done | congruence].
  - apply load_config_inv in Hcfg as ((D0 & _) & _).
    apply load_frame_inv in Hframe as ((D1 & _) & _). left.
    split; [done | simpl; congruence].
  - apply load_config_inv in Hcfg as ((D0 & _) & _).
    apply load_frame_inv in Hframe as ((D1 & _) & _).
    destruct (validate_inv df required_cols st1)
      as [[Hv' _]|(before & col & after & _ & _ & _ & Hv')];
      rewrite Hv' in Hv; [done|]. injection Hv as <- <-. left.
    split; [done | simpl; congruence].
  - apply load_config_inv in Hcfg as ((D0 & _) & _).
    apply load_frame_inv in Hframe as ((D1 & _) & _).
    apply make_report_inv in Hmake as (D2 & _). left.
    split; [done | simpl; congruence].
  - apply load_config_inv in Hcfg as ((D0 & _) & _).
    apply load_frame_inv in Hframe as ((D1 & _) & _).
    apply make_report_inv in Hmake as (D2 & _).
    apply upload_report_inv in Hup as (_ & D3). left.
    split; [done | simpl; congruence].
  - apply load_config_inv in Hcfg as ((D0 & _) & _ & Henv).
    apply load_frame_inv in Hframe as ((D1 & _) & _).
    apply make_report_inv in Hmake as (D2 & _).
    apply upload_report_inv in Hup as (P3 & pdf & Hpdf & D3). right.
    split; [done|]. exists f0, pdf. split; [done|]. split; [congruence|].
    rewrite D3, D2, D1, D0. done.
Qed.

(** X8: a run that does not answer 200 leaves the folder exactly as it was:
    no error, wherever it strikes, publishes a partial result. *)
Theorem failure_publishes_nothing st :
  (generate_report w st).1.2 ≠ 200 →
  drive (generate_report w st).2 = drive st.
Proof.
  destruct (generate_report w st) as [r st'] eqn:Hrun. simpl. intros Hr.
  apply run_drive in Hrun as [[_ ?]|[-> _]]; done.
Qed.

(** The Drive calls and the rest of the folder. *)
Lemma files_update_meta id media (d : list DriveFile) :
  file_meta <$> files_update id media d = file_meta <$> d.
Proof.
  unfold files_update. rewrite <- list_fmap_compose.
  apply list_fmap_ext. intros i f _. simpl. by case_decide.
Qed.

Lemma files_list_elem folder name (d : list DriveFile) f :
  f ∈ files_list folder name d ↔
  f ∈ d ∧ folder ∈ file_parents f ∧ file_name f = name
  ∧ file_trashed f = false.
Proof. unfold files_list. rewrite list_elem_of_filter. tauto. Qed.

Lemma files_update_other id media (d : list DriveFile) f :
  f ∈ d → file_id f ≠ id → f ∈ files_update id media d.
Proof.
  intros Hf Hid. unfold files_update. apply list_elem_of_fmap.
  exists f. split; [|done]. by rewrite decide_False.
Qed.

Lemma NoDup_file_id (d : list DriveFile) f g :
  NoDup (file_id <$> d) → f ∈ d → g ∈ d → file_id f = file_id g → f = g.
Proof.
  induction d as [|x d IH]; intros Hnd Hf Hg Hid.
  - by apply elem_of_nil in Hf.
  - rewrite fmap_cons in Hnd. apply NoDup_cons in Hnd as [Hx Hnd].
    apply elem_of_cons in Hf as [->|Hf]; apply elem_of_cons in Hg as [->|Hg].
    + done.
    + destruct Hx. rewrite Hid. by apply list_elem_of_fmap_2.
    + destruct Hx. rewrite <- Hid. by apply list_elem_of_fmap_2.
    + by apply IH.
Qed.

(** X9: whatever a run does, it removes, renames, moves and bins no file:
    the identifiers, names, parents and bin flags of the files are as
    before, followed by at most one new file.  When the identifiers of the
    folder are distinct, every file not named failed_logs_report.pdf, the
    spreadsheet among them, is still there byte for byte. *)
Theorem run_keeps_files st :
  let st' := (generate_report w st).2 in
  (∃ added, file_meta <$> drive st' = (file_meta <$> drive st) ++ added
            ∧ length added ≤ 1)
  ∧ (NoDup (file_id <$> drive st) →
     ∀ f, f ∈ drive st → file_name f ≠ REPORT_NAME → f ∈ drive st').
Proof.
  destruct (generate_report w st) as [r st'] eqn:Hrun. simpl.
  apply run_drive in Hrun
    as [[_ ->]|(_ & folder_id & pdf & _ & _ & ->)].
  { split; [|done]. exists []. split; [by rewrite app_nil_r | simpl; lia]. }
  destruct (files_list folder_id REPORT_NAME (drive st)) as [|f0 fs] eqn:Hl.
  - simpl. split.
    + eexists [_]. split; [by rewrite fmap_app | simpl; lia].
    + intros _ f Hf _. rewrite elem_of_app. by left.
  - split.
    + exists []. split; [by rewrite files_update_meta, app_nil_r | simpl; lia].
    + intros Hnd f Hf Hname. apply files_update_other; [done|].
      assert (f0 ∈ files_list folder_id REPORT_NAME (drive st)) as H0
        by (rewrite Hl; by left).
      apply files_list_elem in H0 as (H0 & _ & Hname0 & _).
      intros Hid. apply Hname.
      by rewrite (NoDup_file_id _ _ _ Hnd Hf H0 Hid).
Qed.

(** After the upload the folder lists a report that holds the PDF. *)
Lemma published_report folder_id pdf (d : list DriveFile) :
  ∃ g, g ∈ files_list folder_id REPORT_NAME
             (match files_list folder_id REPORT_NAME d with
              | f :: _ => files_update (file_id f) (PdfBlob pdf) d
              | [] => (files_create folder_id REPORT_NAME (PdfBlob pdf) d).2
              end)
       ∧ file_content g = PdfBlob pdf.
Proof.
  destruct (files_list folder_id REPORT_NAME d) as [|f fs] eqn:Hl.
  - exists (mkDriveFile (fresh (file_id <$> d)) REPORT_NAME [folder_id] false
               (PdfBlob pdf)).
    split; [|done]. apply files_list_elem. simpl. split.
    + rewrite elem_of_app. right. by left.
    + repeat split. by left.
  - assert (f ∈ files_list folder_id REPORT_NAME d) as Hf
      by (rewrite Hl; by left).
    apply files_list_elem in Hf as (Hf & Hp & Hn & Ht).
    exists {| file_id := file_id f; file_name := file_name f;
              file_parents := file_parents f;
              file_trashed := file_trashed f;
              file_content := PdfBlob pdf |}.
    split; [|done]. apply files_list_elem. split; [|done].
    unfold files_update. apply list_elem_of_fmap. exists f.
    split; [|done]. by rewrite decide_True.
Qed.

(** X10: what a successful run published.  When the run answers 200, the
    folder held a live failed_logs.xlsx; the first one listed was
    downloaded and parsed to a sheet with the three required columns on
    which the aggregation completed with at least one dataset count (a bar
    to plot); the PDF written holds the capped
    summary text of that sheet and the bar chart of its per-dataset counts;
    and the folder now lists a live failed_logs_report.pdf holding exactly
    this PDF. *)
Theorem success_publishes_summary st :
  (generate_report w st).1.2 = 200 →
  let st' := (generate_report w st).2 in
  ∃ folder_id f fs df s,
    env_get w "DRIVE_FOLDER_ID" = Some folder_id
    ∧ files_list folder_id INPUT_NAME (drive st) = f :: fs
    ∧ rbind (get_media (file_id f) (drive st)) read_excel = Ok df
    ∧ validated df
    ∧ aggregate df = Ok s
    ∧ by_dataset s ≠ []
    ∧ pdf_file st' =
        Some {| pdf_body := summary_text s;
                pdf_image := Some (bar_chart (by_dataset s)) |}
    ∧ ∃ g, g ∈ files_list folder_id REPORT_NAME (drive st')
           ∧ file_content g =
               PdfBlob {| pdf_body := summary_text s;
                          pdf_image := Some (bar_chart (by_dataset s)) |}.
Proof.
  destruct (generate_report w st) as [r st'] eqn:Hrun. simpl. intros H200.
  pose proof Hrun as Hpath%run_paths.
  destruct Hpath as [r st' Hcfg|e st0 Hcfg|f0 st0 r st' Hcfg Hframe
                   |f0 st0 e st1 Hcfg Hframe
                   |f0 st0 df st1 r st' Hcfg Hframe Hv
                   |f0 st0 df st1 e st2 Hcfg Hframe _ Hmake
                   |f0 st0 df st1 st2 e st3 Hcfg Hframe _ Hmake Hup
                   |f0 st0 df st1 st2 st' Hcfg Hframe Hval Hmake Hup];
    try (simpl in H200; discriminate H200).
  - apply load_config_inv in Hcfg as (_ & _ & Hr). simpl in Hr. congruence.
  - apply load_frame_inv in Hframe as (_ & _ & Hr). simpl in Hr. congruence.
  - destruct (validate_inv df required_cols st1)
      as [[Hv' _]|(before & col & after & _ & _ & _ & Hv')];
      rewrite Hv' in Hv; [done|]. injection Hv as <- _.
    simpl in H200. discriminate H200.
  - pose proof (load_config_inv w _ _ _ Hcfg) as ((D0 & _) & _ & Henv).
    apply load_frame_Val in Hframe as (f & fs & Hfiles & Hmedia).
    pose proof (make_report_Val_bars w _ _ _ Hmake) as (s' & Hagg' & Hbars).
    apply make_report_inv in Hmake as (D2 & s & Hagg & _ & _ & Hpdf).
    assert (s' = s) as -> by congruence.
    pose proof (upload_report_inv w _ _ _ _ Hup) as (P3 & _).
    apply run_drive in Hrun as [[Hne _]|(_ & folder' & pdf & Henv' & Hpdf' & ->)];
      [done|].
    rewrite Henv in Henv'. injection Henv' as <-.
    rewrite D0 in Hfiles, Hmedia.
    assert (pdf = {| pdf_body := summary_text s;
                     pdf_image := Some (bar_chart (by_dataset s)) |}) as ->
      by congruence.
    exists f0, f, fs, df, s. repeat (split; [done|]).
    apply published_report.
Qed.

(** Each step ends normally when nothing it depends on fails. *)
Lemma load_config_ok st json folder_id :
  env_get w "GOOGLE_SERVICE_ACCOUNT_JSON" = Some json →
  env_get w "DRIVE_FOLDER_ID" = Some folder_id →
  json_error w json = None →
  (∀ o, fault w o = None) →
  ∃ st0, load_config w st = (Val folder_id, st0) ∧ drive st0 = drive st.
Proof.
  intros Hjson Hfolder Hparse Hfault.
  unfold load_config, bind, print, external, ret.
  rewrite Hjson, Hfolder, Hparse, !Hfault. by eexists.
Qed.

Lemma load_frame_ok folder_id st f fs df :
  (∀ o, fault w o = None) →
  files_list folder_id INPUT_NAME (drive st) = f :: fs →
  rbind (get_media (file_id f) (drive st)) read_excel = Ok df →
  ∃ st1, load_frame w folder_id st = (Val df, st1).
Proof.
  intros Hfault Hfiles Hmedia.
  destruct (get_media (file_id f) (drive st)) as [fh|] eqn:Hget; [|done].
  simpl in Hmedia.
  unfold load_frame, bind, print, external, ret, gets, lift.
  rewrite !Hfault. simpl. rewrite Hfiles. simpl. rewrite Hget. simpl.
  rewrite Hmedia. by eexists.
Qed.

Lemma make_report_ok df s st :
  (∀ o, fault w o = None) → aggregate df = Ok s → by_dataset s ≠ [] →
  ∃ st2, make_report w df st = (Val tt, st2)
         ∧ ∃ pdf, pdf_file st2 = Some pdf.
Proof.
  intros Hfault Hagg Hbars.
  unfold make_report, bind, print, external, ret, gets, lift, put_chart,
    put_pdf, plot_bar.
  rewrite Hagg, !Hfault. simpl. destruct (by_dataset s); [done|].
  simpl. eexists. split; [done|]. by eexists.
Qed.

Lemma upload_report_ok folder_id st pdf :
  (∀ o, fault w o = None) → pdf_file st = Some pdf →
  ∃ st', upload_report w folder_id st = (Val tt, st').
Proof.
  intros Hfault Hpdf.
  unfold upload_report, bind, print, external, ret, gets, put_drive.
  rewrite !Hfault. simpl. rewrite Hpdf.
  destruct (files_list folder_id REPORT_NAME _); by eexists.
Qed.

(** X11: what is enough for a run to succeed.  With both variables set and
    credentials that parse, no external call failing, a live
    failed_logs.xlsx in the folder whose first listed file parses to a
    sheet with the three required columns, a date column that has a
    maximum and at least one row with a dataset (so that there is a bar to
    plot), the run answers 200 with the success text. *)
Theorem success_conditions st json folder_id f fs df m :
  env_get w "GOOGLE_SERVICE_ACCOUNT_JSON" = Some json →
  env_get w "DRIVE_FOLDER_ID" = Some folder_id →
  json_error w json = None →
  (∀ o, fault w o = None) →
  files_list folder_id INPUT_NAME (drive st) = f :: fs →
  rbind (get_media (file_id f) (drive st)) read_excel = Ok df →
  validated df →
  series_max (column df "date") = Ok m →
  (∃ c, c ∈ column df "dataset" ∧ isnull c = false) →
  (generate_report w st).1 = success_response.
Proof.
  intros Hjson Hfolder Hparse Hfault Hfiles Hmedia Hval Hmax (c & Hc & Hnn).
  destruct (aggregate_total df m Hval Hmax) as [s Hagg].
  assert (by_dataset s ≠ []) as Hbars.
  { pose proof Hagg as (_ & -> & _)%aggregate_Ok.
    rewrite value_counts_nil, isnull_all_spec. intros Hall.
    apply Hall in Hc. congruence. }
  destruct (load_config_ok st json folder_id Hjson Hfolder Hparse Hfault)
    as (st0 & Hcfg & D0).
  rewrite <- D0 in Hfiles, Hmedia.
  destruct (load_frame_ok folder_id st0 f fs df Hfault Hfiles Hmedia)
    as (st1 & Hframe).
  destruct (make_report_ok df s st1 Hfault Hagg Hbars) as (st2 & Hmake & pdf & Hpdf).
  destruct (upload_report_ok folder_id st2 pdf Hfault Hpdf) as (st3 & Hup).
  unfold generate_report, body, bind.
  by rewrite Hcfg, Hframe, (validate_validated df _ Hval), Hmake, Hup.
Qed.

(** X12: a second successful run adds no file.  After a run that answered
    200 the folder lists a report, so the next successful run updates it
    in place: the identifiers, names, parents and bin flags of the folder
    are the same after the second run as after the first. *)
Theorem second_run_adds_no_file st :
  let first := generate_report w st in
  let second := generate_report w first.2 in
  first.1.2 = 200 → second.1.2 = 200 →
  file_meta <$> drive second.2 = file_meta <$> drive first.2.
Proof.
  intros first second. subst second.
  destruct (generate_report w st) as [r1 st1] eqn:Hrun1. subst first. simpl.
  destruct (generate_report w st1) as [r2 st2] eqn:Hrun2. simpl.
  intros H1 H2.
  apply run_drive in Hrun1
    as [[Hne _]|(_ & folder_id & pdf1 & Henv & _ & D1)]; [done|].
  apply run_drive in Hrun2
    as [[Hne _]|(_ & folder' & pdf2 & Henv' & _ & D2)]; [done|].
  rewrite Henv in Henv'. injection Henv' as <-.
  destruct (published_report folder_id pdf1 (drive st)) as (g & Hg & _).
  rewrite <- D1 in Hg.
  destruct (files_list folder_id REPORT_NAME (drive st1)) as [|f0 fs];
    [by apply elem_of_nil in Hg|].
  rewrite D2. apply files_update_meta.
Qed.

(** The last line a step prints when it ends the upload normally. *)
Lemma upload_report_last folder_id st st' :
  upload_report w folder_id st = (Val tt, st') →
  ∃ id, last (log st') = Some (LogUpdated id)
        ∨ last (log st') = Some (LogCreated id).
Proof.
  unfold upload_report. intros H. exec_cases;
    eexists; rewrite last_snoc; eauto.
Qed.

(** X13: every failure is logged before it is answered.  A run that does
    not answer 200 has an [ERROR] line as the last line of its log; a run
    that answers 200 ends its log with the line that names the updated or
    created report. *)
Theorem failures_are_logged st :
  let r := (generate_report w st).1 in
  let st' := (generate_report w st).2 in
  (r.2 ≠ 200 → ∃ e, last (log st') = Some e ∧ is_error e = true)
  ∧ (r.2 = 200 → ∃ id, last (log st') = Some (LogUpdated id)
                       ∨ last (log st') = Some (LogCreated id)).
Proof.
  destruct (generate_report w st) as [r st'] eqn:Hrun. simpl.
  apply run_paths in Hrun.
  destruct Hrun as [r st' Hcfg|e st0 Hcfg|f0 st0 r st' Hcfg Hframe
                   |f0 st0 e st1 Hcfg Hframe
                   |f0 st0 df st1 r st' Hcfg Hframe Hv
                   |f0 st0 df st1 e st2 Hcfg Hframe _ Hmake
                   |f0 st0 df st1 st2 e st3 Hcfg Hframe _ Hmake Hup
                   |f0 st0 df st1 st2 st' Hcfg Hframe Hval Hmake Hup];
    try (split; [intros _; eexists; split; [apply last_snoc|done]
                |simpl; intros; done]).
  - pose proof (load_config_inv w _ _ _ Hcfg) as (_ & _ & Hr). simpl in Hr.
    split; [intros _|intros; congruence].
    apply load_config_Return in Hcfg
      as [(_ & _ & ->)|(? & ? & msg & _ & _ & _ & _ & ->)];
      eexists; (split; [apply last_snoc|done]).
  - apply load_frame_Return in Hframe as (_ & -> & ->).
    split; [intros _|simpl; intros; done].
    eexists; (split; [apply last_snoc|done]).
  - destruct (validate_inv df required_cols st1)
      as [[Hv' _]|(before & col & after & _ & _ & _ & Hv')];
      rewrite Hv' in Hv; [done|]. injection Hv as <- <-.
    split; [intros _|simpl; intros; done].
    eexists; (split; [apply last_snoc|done]).
  - split; [done|]. intros _. by eapply upload_report_last.
Qed.

Lemma column_response_inj col1 col2 :
  column_response col1 = column_response col2 → col1 = col2.
Proof. intros [= H]. by apply (inj _) in H. Qed.

Lemma first_missing_unique (P : string → Prop) (cols b1 a1 b2 a2 : list string)
    c1 c2 :
  cols = b1 ++ c1 :: a1 → cols = b2 ++ c2 :: a2 →
  (∀ c, c ∈ b1 → P c) → ¬ P c1 → (∀ c, c ∈ b2 → P c) → ¬ P c2 →
  c1 = c2.
Proof.
  revert cols b2. induction b1 as [|x b1 IH]; intros cols b2 -> H2 Hb1 Hc1 Hb2 Hc2.
  - destruct b2 as [|y b2]; simpl in H2; [congruence|].
    injection H2 as -> _. destruct Hc1. apply Hb2. by left.
  - destruct b2 as [|y b2]; simpl in H2.
    + injection H2 as -> _. destruct Hc2. apply Hb1. by left.
    + injection H2 as -> H2.
      apply (IH (b1 ++ c1 :: a1) b2); [done|done| |done| |done].
      * intros c Hc. apply Hb1. by right.
      * intros c Hc. apply Hb2. by right.
Qed.

(** X14: when several required columns are missing the response names the
    first one in the order dataset, reason, date.  Once the sheet is
    parsed, the run answers with the missing-column text for [col] exactly
    when [col] is a required column the sheet lacks and every required
    column before it is present. *)
Theorem first_missing_column_named st folder_id st0 df st1 :
  load_config w st = (Val folder_id, st0) →
  load_frame w folder_id st0 = (Val df, st1) →
  ∀ col,
    (generate_report w st).1 = column_response col
    ↔ ∃ before after,
        required_cols = before ++ col :: after
        ∧ (∀ c, c ∈ before → c ∈ columns df) ∧ (col ∉ columns df).
Proof.
  intros Hcfg Hframe col.
  destruct (validate_inv df required_cols st1)
    as [[Hv Hall]|(before & col' & after & Hc & Hb & Hcol & Hv)].
  - assert (∃ e, (generate_report w st).1 = caught e
                 ∨ (generate_report w st).1 = success_response) as (e & Hr).
    { unfold generate_report, body, bind. rewrite Hcfg, Hframe, Hv.
      destruct (make_report w df st1) as [[[]|r0|e] st2] eqn:Hmake.
      - destruct (upload_report w folder_id st2) as [[[]|r0|e] st3] eqn:Hup.
        + exists (KeyError ""). by right.
        + by apply upload_report_inv in Hup as [_ ?].
        + exists e. by left.
      - by apply make_report_inv in Hmake as [_ ?].
      - exists e. by left. }
    split.
    + intros Hcol. rewrite Hcol in Hr. destruct Hr as [Hr|Hr].
      * apply (f_equal fst) in Hr. vm_compute in Hr. discriminate Hr.
      * apply (f_equal snd) in Hr. discriminate Hr.
    + intros (b & a & Hc & _ & Hmiss). destruct Hmiss. apply Hall.
      rewrite Hc, elem_of_app. right. by left.
  - assert ((generate_report w st).1 = column_response col') as Hr.
    { unfold generate_report, body, bind. by rewrite Hcfg, Hframe, Hv. }
    rewrite Hr. split.
    + intros <-%column_response_inj. eauto.
    + intros (b & a & Hc' & Hb' & Hmiss). f_equal.
      by apply (first_missing_unique (λ c, c ∈ columns df) required_cols
                  before after b a col' col).
Qed.

End Contract.

(** * Further properties of the summary text *)

Section Capping.

Implicit Types (s w : string) (ws : list string) (c : ascii).

Lemma chars_app s1 s2 :
  list_ascii_of_string (s1 +:+ s2)
  = list_ascii_of_string s1 ++ list_ascii_of_string s2.
Proof.
  induction s1 as [|c s1 IH]; [done|].
  rewrite str_app_cons. simpl. by rewrite IH.
Qed.

Lemma no_space_chars s c :
  no_space s = true → c ∈ list_ascii_of_string s → isspace c = false.
Proof.
  induction s as [|x s IH]; simpl; [by intros _ ?%elem_of_nil|].
  intros [Hx Hs]%andb_true_iff [->|Hc]%elem_of_cons.
  - by apply negb_true_iff.
  - by apply IH.
Qed.

Lemma join_words_chars ws c :
  Forall is_word ws → c ∈ list_ascii_of_string (join " " ws) →
  isspace c = true → c = " "%char.
Proof.
  induction ws as [|w ws IH]; intros Hws Hc Hsp.
  - by apply elem_of_nil in Hc.
  - apply Forall_cons in Hws as [[_ Hw] Hws].
    destruct ws as [|w' ws].
    + simpl in Hc. apply (no_space_chars _ _ Hw) in Hc. congruence.
    + rewrite join_cons, !chars_app in Hc.
      apply elem_of_app in Hc as [Hc|Hc].
      * apply (no_space_chars _ _ Hw) in Hc. congruence.
      * apply elem_of_app in Hc as [Hc|Hc]; [|by apply IH].
        by apply list_elem_of_singleton in Hc.
Qed.

(** X15: capping flattens the text.  When the summary has more than 300
    words, the final text is a single line: its only whitespace characters
    are single spaces, so the line breaks of the summary are gone. *)
Theorem capped_text_is_one_line (sm : Summary) :
  300 < length (split (join newline (summary_lines sm))) →
  ∀ c, c ∈ list_ascii_of_string (summary_text sm) →
       isspace c = true → c = " "%char.
Proof.
  intros Hlen c Hc Hsp. unfold summary_text, cap_words in Hc.
  rewrite decide_True in Hc by done. rewrite chars_app in Hc.
  apply elem_of_app in Hc as [Hc|Hc].
  - eapply join_words_chars; [|done..]. apply Forall_take, split_words.
  - apply (no_space_chars "...") in Hc; [congruence|done].
Qed.

End Capping.

(** ** The further properties on the sample inputs *)


Lemma most_recent_is_latest_witness :
  (∃ s, aggregate df_sample = Ok s ∧ most_recent s = Stamp stamp_mar)
  ∧ (∃ s, aggregate (parse_sheet df_undated) = Ok s ∧ most_recent s = NaN).
Proof.
  split.
  - destruct (most_recent_is_latest (Xlsx df_sample) df_sample)
      as (s & Hs & Hlatest & _).
    + by vm_compute.
    + apply df_sample_validated.
    + intros t Ht. vm_compute in Ht.
      repeat (apply elem_of_cons in Ht as [Ht|Ht]; [discriminate Ht|]).
      by apply elem_of_nil in Ht.
    + exists s. split; [done|]. vm_compute in Hs. by injection Hs as <-.
  - destruct (most_recent_is_latest (Xlsx df_undated) (parse_sheet df_undated))
      as (s & Hs & _ & Hblank).
    + done.
    + intros c. unfold required_cols. simpl.
      rewrite !elem_of_cons, !elem_of_nil. tauto.
    + intros t Ht. vm_compute in Ht.
      repeat (apply elem_of_cons in Ht as [Ht|Ht]; [discriminate Ht|]).
      by apply elem_of_nil in Ht.
    + exists s. split; [done|]. apply Hblank.
      intros c Hc. vm_compute in Hc.
      repeat (apply elem_of_cons in Hc as [->|Hc]; [done|]).
      by apply elem_of_nil in Hc.
Defined.

(** Read from the sheet, the text "N/A" of the second row is a blank. *)
Example undated_as_read :
  column (parse_sheet df_undated) "reason" = [Text "timeout"; NaN]
  ∧ column (parse_sheet df_undated) "date" = [NaN; NaN].
Proof. by vm_compute. Qed.

Lemma summary_lines_count_witness :
  ∃ s, aggregate df_sample = Ok s
    ∧ length (summary_lines s)
        = 9 + min 5 (length (by_dataset s)) + min 5 (len df_sample)
    ∧ length (summary_lines s) ≤ 19.
Proof.
  apply (summary_lines_count df_sample (Stamp stamp_mar)).
  - apply df_sample_validated.
  - by vm_compute.
Defined.

Lemma response_contract_witness :
  let r := (generate_report w_noplot st_fresh).1 in
  r = success_response
  ∨ r = not_found_response
  ∨ r = env_missing_response
  ∨ (∃ msg, r = json_response msg)
  ∨ (∃ col, col ∈ required_cols ∧ r = column_response col)
  ∨ (∃ e, r = caught e).
Proof.
  apply (response_contract w_noplot st_fresh _
           (generate_report w_noplot st_fresh).2).
  by destruct (generate_report w_noplot st_fresh).
Defined.

Lemma env_missing_iff_witness :
  (generate_report w_empty_folder st_fresh).1 = env_missing_response
  ∧ (generate_report w_empty_folder st_fresh).2
      = emit ErrEnvMissing (emit LogStart st_fresh).
Proof.
  destruct (env_missing_iff w_empty_folder st_fresh) as [[_ Hr] Hst].
  split; [apply Hr | apply Hst]; right; by vm_compute.
Defined.

Lemma json_error_iff_witness :
  ((generate_report w_bad_json st_fresh).1
     = json_response "Expecting value: line 1 column 1 (char 0)"
   ↔ json_error w_bad_json "{}"
       = Some "Expecting value: line 1 column 1 (char 0)")
  ∧ (json_error w_bad_json "{}"
       = Some "Expecting value: line 1 column 1 (char 0)" →
     (generate_report w_bad_json st_fresh).2
       = emit (ErrJson "Expecting value: line 1 column 1 (char 0)")
           (emit LogStart st_fresh)).
Proof.
  apply (json_error_iff w_bad_json st_fresh "{}" "folder-1");
    by vm_compute.
Defined.

Lemma not_found_iff_witness :
  ((generate_report w_ok st_trashed).1.2 = 404
   ↔ files_list "folder-1" INPUT_NAME (drive st_trashed) = [])
  ∧ (files_list "folder-1" INPUT_NAME (drive st_trashed) = [] →
     (generate_report w_ok st_trashed).1 = not_found_response
     ∧ drive (generate_report w_ok st_trashed).2 = drive st_trashed).
Proof.
  apply (not_found_iff w_ok st_trashed "folder-1"
           (load_config w_ok st_trashed).2); by vm_compute.
Defined.

Lemma failure_publishes_nothing_witness :
  drive (generate_report w_no_update st_prior).2 = drive st_prior.
Proof.
  apply (failure_publishes_nothing w_no_update st_prior).
  vm_compute. intros H. discriminate H.
Defined.

Lemma run_keeps_files_witness :
  input_file df_sample ∈ drive (generate_report w_ok st_prior).2.
Proof.
  destruct (run_keeps_files w_ok st_prior) as [_ Hkeep].
  apply Hkeep.
  - vm_compute. repeat constructor; rewrite ?elem_of_cons, ?elem_of_nil;
      intros H; repeat destruct H as [H|H]; try discriminate H; done.
  - right. by left.
  - intros H. vm_compute in H. discriminate H.
Defined.

Lemma success_publishes_summary_witness :
  ∃ folder_id f fs df s,
    env_get w_ok "DRIVE_FOLDER_ID" = Some folder_id
    ∧ files_list folder_id INPUT_NAME (drive st_prior) = f :: fs
    ∧ rbind (get_media (file_id f) (drive st_prior)) read_excel = Ok df
    ∧ validated df
    ∧ aggregate df = Ok s
    ∧ by_dataset s ≠ []
    ∧ pdf_file (generate_report w_ok st_prior).2 =
        Some {| pdf_body := summary_text s;
                pdf_image := Some (bar_chart (by_dataset s)) |}
    ∧ ∃ g, g ∈ files_list folder_id REPORT_NAME
                 (drive (generate_report w_ok st_prior).2)
           ∧ file_content g =
               PdfBlob {| pdf_body := summary_text s;
                          pdf_image := Some (bar_chart (by_dataset s)) |}.
Proof.
  apply (success_publishes_summary w_ok st_prior). by vm_compute.
Defined.

Lemma success_conditions_witness :
  (generate_report w_ok st_fresh).1 = success_response.
Proof.
  apply (success_conditions w_ok st_fresh "{}" "folder-1"
           (input_file df_sample) [] df_sample (Stamp stamp_mar)).
  - by vm_compute.
  - by vm_compute.
  - reflexivity.
  - intros o. reflexivity.
  - by vm_compute.
  - by vm_compute.
  - apply df_sample_validated.
  - by vm_compute.
  - exists (Text "x"). split; [by left | done].
Defined.

Lemma second_run_adds_no_file_witness :
  file_meta <$> drive (generate_report w_ok
                         (generate_report w_ok st_fresh).2).2
  = file_meta <$> drive (generate_report w_ok st_fresh).2.
Proof.
  apply (second_run_adds_no_file w_ok st_fresh); by vm_compute.
Defined.

Lemma failures_are_logged_witness :
  ∃ e, last (log (generate_report w_no_update st_prior).2) = Some e
       ∧ is_error e = true.
Proof.
  destruct (failures_are_logged w_no_update st_prior) as [Hfail _].
  apply Hfail. vm_compute. intros H. discriminate H.
Defined.

Lemma first_missing_column_named_witness :
  (generate_report w_ok st_nodate).1 = column_response "date"
  ↔ ∃ before after,
      required_cols = before ++ "date" :: after
      ∧ (∀ c, c ∈ before → c ∈ columns df_nodate)
      ∧ ("date" ∉ columns df_nodate).
Proof.
  apply (first_missing_column_named w_ok st_nodate "folder-1"
           (load_config w_ok st_nodate).2 df_nodate
           (load_frame w_ok "folder-1" (load_config w_ok st_nodate).2).2);
    by vm_compute.
Defined.

Lemma capped_text_is_one_line_witness :
  ∃ sm, aggregate df_long = Ok sm
    ∧ ∀ c, c ∈ list_ascii_of_string (summary_text sm) →
           isspace c = true → c = " "%char.
Proof.
  eexists. split; [vm_compute; reflexivity|].
  apply capped_text_is_one_line. vm_compute; lia.
Defined.
